(** * Cover insertion for OEB books: [ebooks/oeb/transforms/cover.py]

    A shallow embedding of the module: the series-index formatter
    ([roman], [fmt_sidx]) and the [CoverManager] class, with the properties
    its specification states about them.

    Python values are modelled as follows.
    - [int] is [Z]; [str] is [string]; [None] is a constructor of its own.
    - [float] is IEEE binary64, as [spec_float] with precision 53 and
      maximal exponent 1024 (the standard library's executable
      specification of floating-point arithmetic).
    - An exception is a value [Raise e] of the [result] type; state
      (the instance, the book, the log) is passed explicitly. *)

From Stdlib Require Import ZArith List Bool Ascii Lia Zpower.
From Stdlib Require Import Floats.SpecFloat.
From stdpp Require Import base strings pretty gmap list.

Local Open Scope Z_scope.

(** ** Exceptions and results *)

Inductive exn : Type :=
  | ValueError
  | TypeError
  | OverflowError
  | IndexError
  | KeyError
  | ExternalError (name : string).

Inductive result (A : Type) : Type :=
  | Ok (a : A)
  | Raise (e : exn).

Arguments Ok {A} a.
Arguments Raise {A} e.

Definition rbind {A B : Type} (r : result A) (k : A → result B) : result B :=
  match r with
  | Ok a => k a
  | Raise e => Raise e
  end.

(** ** Python floats (binary64) *)

Module Float.

Abbreviation t := spec_float.

Definition prec : Z := 53.
Definition emax : Z := 1024.

(** The float nearest to [m * 2^e] (ties to even). *)
Definition make (m e : Z) : t := binary_normalize prec emax m e false.

(** [float(z)] for an [int] [z]: correctly rounded, [OverflowError] when
    the integer is too large for a float. *)
Definition of_int (z : Z) : result t :=
  match make z 0 with
  | S754_infinity _ => Raise OverflowError
  | f => Ok f
  end.

(** [int(f)]: truncation towards zero. *)
Definition to_int (f : t) : result Z :=
  match f with
  | S754_nan => Raise ValueError
  | S754_infinity _ => Raise OverflowError
  | S754_zero _ => Ok 0
  | S754_finite s m e =>
      Ok (cond_Zopp s (if 0 <=? e then Zpos m * 2 ^ e
                       else Zpos m / 2 ^ (- e)))
  end.

(** Exact comparison of a float with an [int], as Python does it
    (no conversion of the integer); [None] when the float is a NaN,
    for which every ordered comparison is false. *)
Definition compare_int (f : t) (z : Z) : option comparison :=
  match f with
  | S754_nan => None
  | S754_zero _ => Some (0 ?= z)
  | S754_infinity s => Some (if s then Lt else Gt)
  | S754_finite s m e =>
      let v := cond_Zopp s (Zpos m) in
      if 0 <=? e then Some (v * 2 ^ e ?= z)
      else Some (v ?= z * 2 ^ (- e))
  end.

Definition le_int (f : t) (z : Z) : bool :=
  match compare_int f z with
  | Some Lt | Some Eq => true
  | _ => false
  end.

Definition ge_int (f : t) (z : Z) : bool :=
  match compare_int f z with
  | Some Gt | Some Eq => true
  | _ => false
  end.

Definition eq_int (f : t) (z : Z) : bool :=
  match compare_int f z with
  | Some Eq => true
  | _ => false
  end.

(** [f - d] for an [int] [d] that converts to a float. *)
Definition sub_int (f : t) (d : Z) : t := SFsub prec emax f (make d 0).

End Float.

(** ** Builtins of Python that the module calls and that are not modelled
    in full: they are parameters of the development. *)

Class Builtins : Type := {
  (** [str(x)] of a float [x] (its shortest round-trip decimal form) *)
  float_str : Float.t → string;
  (** [float(s)] of a [str] [s]; [None] stands for [ValueError] *)
  float_of_str : string → option Float.t;
  (** [fmt % x] for a float [x], for the format strings outside the
      fragment [%.<n>f] that [format_float] below computes *)
  format_float_ext : string → Float.t → result string;
  (** [templ % s] for a [str] [s], for the templates outside the fragment
      ([%%] and [%s] only) that [format_str] below computes *)
  format_str_ext : string → string → result string;
  (** [urllib.parse.unquote] *)
  unquote : string → string
}.

(** ** Numbers: what [roman] may be applied to *)

Inductive pynum : Type :=
  | PInt (z : Z)
  | PFloat (f : Float.t).

Section Numbers.
Context `{Builtins}.

(** [num <= k] *)
Definition num_le (num : pynum) (k : Z) : bool :=
  match num with
  | PInt z => z <=? k
  | PFloat f => Float.le_int f k
  end.

(** [num >= k] *)
Definition num_ge (num : pynum) (k : Z) : bool :=
  match num with
  | PInt z => k <=? z
  | PFloat f => Float.ge_int f k
  end.

(** [int(num)] *)
Definition num_int (num : pynum) : result Z :=
  match num with
  | PInt z => Ok z
  | PFloat f => Float.to_int f
  end.

(** [k != num] for an [int] [k] *)
Definition num_ne (k : Z) (num : pynum) : bool :=
  match num with
  | PInt z => negb (k =? z)
  | PFloat f => negb (Float.eq_int f k)
  end.

(** [num - d] *)
Definition num_sub (num : pynum) (d : Z) : pynum :=
  match num with
  | PInt z => PInt (z - d)
  | PFloat f => PFloat (Float.sub_int f d)
  end.

(** [str(num)] *)
Definition num_str (num : pynum) : string :=
  match num with
  | PInt z => pretty z
  | PFloat f => float_str f
  end.

End Numbers.

(** ** [roman] *)

Definition coding : list (Z * string) :=
  combine
    [1000; 900; 500; 400; 100; 90; 50; 40; 10; 9; 5; 4; 1]
    ["M"; "CM"; "D"; "CD"; "C"; "XC"; "L"; "XL"; "X"; "IX"; "V"; "IV"; "I"].

(** [''.join(result)] *)
Definition join (parts : list string) : string :=
  fold_right String.append "" parts.

Section Roman.
Context `{Builtins}.

(** The inner loop [while num >= d: result.append(r); num -= d].
    [fuel] bounds the number of iterations; [while_ge_int_exit] and
    [roman_float_numeral] below show that the bound chosen in [roman] is
    never what ends the loop. *)
Fixpoint while_ge (fuel : nat) (d : Z) (r : string)
    (num : pynum) (res : list string) : pynum * list string :=
  match fuel with
  | O => (num, res)
  | S fuel' =>
      if num_ge num d
      then while_ge fuel' d r (num_sub num d) (res ++ [r])
      else (num, res)
  end.

(** The outer loop [for d, r in coding]. *)
Fixpoint for_coding (fuel : nat) (table : list (Z * string))
    (num : pynum) (res : list string) : pynum * list string :=
  match table with
  | [] => (num, res)
  | (d, r) :: table' =>
      let '(num', res') := while_ge fuel d r num res in
      for_coding fuel table' num' res'
  end.

Definition roman (num : pynum) : result string :=
  if num_le num 0 || num_ge num 4000 then Ok (num_str num)
  else
    rbind (num_int num) (λ k,
      if num_ne k num then Ok (num_str num)
      else Ok (join (snd (for_coding 4000 coding num [])))).

End Roman.

(** ** String formatting of floats: [fmt % x] *)

Definition digit_value (c : ascii) : option Z :=
  let n := Z.of_nat (nat_of_ascii c) in
  if (48 <=? n) && (n <=? 57) then Some (n - 48) else None.

(** Reads the decimal digits at the front of [s]: their value, how many
    there are, and what follows them. *)
Fixpoint read_digits (acc : Z) (count : nat) (s : string) : Z * nat * string :=
  match s with
  | String c s' =>
      match digit_value c with
      | Some d => read_digits (10 * acc + d) (S count) s'
      | None => (acc, count, s)
      end
  | EmptyString => (acc, count, s)
  end.

(** The precision [n] of a format string that is exactly [%.<n>f], with at
    most nine digits (no digit at all means precision 0). *)
Definition fixed_precision (fmt : string) : option Z :=
  match fmt with
  | String "%" (String "." rest) =>
      match read_digits 0 0 rest with
      | (n, count, String "f" EmptyString) =>
          if (count <=? 9)%nat then Some n else None
      | _ => None
      end
  | _ => None
  end.

(** [p / q] rounded to the nearest integer, ties to even ([0 <= p], [0 < q]). *)
Definition div_half_even (p q : Z) : Z :=
  let a := p / q in
  let r := p mod q in
  match 2 * r ?= q with
  | Lt => a
  | Gt => a + 1
  | Eq => if Z.even a then a else a + 1
  end.

Fixpoint zeros (n : nat) : string :=
  match n with
  | O => ""
  | S n' => String "0" (zeros n')
  end.

(** The digits of [k >= 0], padded with zeros on the left to [width]. *)
Definition pad_digits (width : nat) (k : Z) : string :=
  let s := pretty k in
  zeros (width - String.length s) +:+ s.

(** The text of [scaled / 10^n] with exactly [n] decimals. *)
Definition fixed_text (neg : bool) (n : Z) (scaled : Z) : string :=
  let whole := pretty (scaled / 10 ^ n) in
  let text :=
    if n =? 0 then whole
    else whole +:+ "." +:+ pad_digits (Z.to_nat n) (scaled mod 10 ^ n) in
  if neg then "-" +:+ text else text.

(** ['%.<n>f' % f]: the exact value of the float, rounded to [n] decimals
    (ties to even). *)
Definition format_fixed (n : Z) (f : Float.t) : string :=
  match f with
  | S754_nan => "nan"
  | S754_infinity s => if s then "-inf" else "inf"
  | S754_zero s => fixed_text s n 0
  | S754_finite s m e =>
      let scaled :=
        if 0 <=? e then Zpos m * 2 ^ e * 10 ^ n
        else div_half_even (Zpos m * 10 ^ n) (2 ^ (- e)) in
      fixed_text s n scaled
  end.

(** ** [fmt_sidx] *)

(** The values [fmt_sidx] is applied to: [None], a [str], a number, or any
    other object, of which only its [str()] matters and which [float()]
    rejects with [TypeError]. *)
Inductive pyval : Type :=
  | VNone
  | VStr (s : string)
  | VNum (n : pynum)
  | VObj (repr : string).

Section FmtSidx.
Context `{Builtins}.

(** [fmt % x] for a float [x] *)
Definition format_float (fmt : string) (x : Float.t) : result string :=
  match fixed_precision fmt with
  | Some n => Ok (format_fixed n x)
  | None => format_float_ext fmt x
  end.

(** [float(i)] *)
Definition py_float (i : pyval) : result Float.t :=
  match i with
  | VNone => Raise TypeError
  | VStr s =>
      match float_of_str s with
      | Some f => Ok f
      | None => Raise ValueError
      end
  | VNum (PInt z) => Float.of_int z
  | VNum (PFloat f) => Ok f
  | VObj _ => Raise TypeError
  end.

(** [str(i)] *)
Definition py_str (i : pyval) : string :=
  match i with
  | VNone => "None"
  | VStr s => s
  | VNum n => num_str n
  | VObj repr => repr
  end.

(** [i is None or i == ''] *)
Definition none_or_empty (i : pyval) : bool :=
  match i with
  | VNone => true
  | VStr s => bool_decide (s = "")
  | _ => false
  end.

Definition default_fmt : string := "%.2f".

Definition fmt_sidx (i : pyval) (fmt : string) (use_roman : bool)
    : result string :=
  let i := if none_or_empty i then VNum (PInt 1) else i in
  match py_float i with
  | Raise TypeError => Ok (py_str i)
  | Raise e => Raise e
  | Ok x =>
      rbind (Float.to_int x) (λ k,
        if Float.eq_int x k
        then (if use_roman then roman (PInt k) else Ok (pretty k))
        else format_float fmt x)
  end.

End FmtSidx.

(** ** Strings: [str.replace], [templ % s], and the two page templates *)

(** [Some rest] when [s = p +:+ rest]. *)
Fixpoint strip_prefix (p s : string) : option string :=
  match p, s with
  | EmptyString, _ => Some s
  | String a p', String b s' =>
      if bool_decide (a = b) then strip_prefix p' s' else None
  | String _ _, EmptyString => None
  end.

(** [s.replace(old, new)] for a non-empty [old]: the occurrences of [old]
    are replaced from left to right, without overlap. [skip] counts the
    characters of an occurrence that are still to be passed over. *)
Fixpoint replace_from (old new : string) (skip : nat) (s : string) : string :=
  match s with
  | EmptyString => EmptyString
  | String c s' =>
      match skip with
      | S skip' => replace_from old new skip' s'
      | O =>
          match strip_prefix old s with
          | Some _ => new +:+ replace_from old new (String.length old - 1) s'
          | None => String c (replace_from old new 0 s')
          end
      end
  end.

(** [new.join(s)] with [new] also before and after: what [replace] does
    for an empty [old]. *)
Fixpoint interleave (new s : string) : string :=
  match s with
  | EmptyString => new
  | String c s' => new +:+ String c (interleave new s')
  end.

Definition replace (s old new : string) : string :=
  match old with
  | EmptyString => interleave new s
  | _ => replace_from old new 0 s
  end.

(** A template after its conversion specifiers are read: literal
    characters and places for the argument. *)
Inductive piece : Type :=
  | Lit (c : ascii)
  | Arg.

(** Reads a template in which every [%] starts [%%] or [%s]; [None] for
    any other template. *)
Fixpoint parse_template (templ : string) : option (list piece) :=
  match templ with
  | EmptyString => Some []
  | String "%" (String "%" rest) => cons (Lit "%") <$> parse_template rest
  | String "%" (String "s" rest) => cons Arg <$> parse_template rest
  | String "%" _ => None
  | String c rest => cons (Lit c) <$> parse_template rest
  end.

Fixpoint render (ps : list piece) (arg : string) : string :=
  match ps with
  | [] => ""
  | Lit c :: ps' => String c (render ps' arg)
  | Arg :: ps' => arg +:+ render ps' arg
  end.

Fixpoint count_args (ps : list piece) : nat :=
  match ps with
  | [] => 0
  | Lit _ :: ps' => count_args ps'
  | Arg :: ps' => S (count_args ps')
  end.

Section FormatStr.
Context `{Builtins}.

(** [templ % arg] for a [str] [arg]: exactly one [%s] is needed, or
    Python raises [TypeError] (not all arguments converted, or not enough
    arguments). *)
Definition format_str (templ arg : string) : result string :=
  match parse_template templ with
  | Some ps =>
      match count_args ps with
      | 1%nat => Ok (render ps arg)
      | _ => Raise TypeError
      end
  | None => format_str_ext templ arg
  end.

End FormatStr.

Definition nl : string := String (ascii_of_nat 10) EmptyString.

Definition dq : string := String (ascii_of_nat 34) EmptyString.

(** The templates below are written with an apostrophe where the source has
    a double quote; [quoted] puts the double quotes back. *)
Fixpoint quoted (s : string) : string :=
  match s with
  | EmptyString => EmptyString
  | String c s' =>
      String (if bool_decide (c = "'"%char) then ascii_of_nat 34 else c)
             (quoted s')
  end.

(** What [textwrap.dedent] returns for the literals of the source: the
    lines without their common margin of eight spaces, each ended by a
    newline (the last, blank, line of the literal contributes nothing). *)
Definition template_lines (ls : list string) : string :=
  fold_right (λ l acc, quoted l +:+ nl +:+ acc) "" ls.

Definition SVG_TEMPLATE : string :=
  template_lines [
    "<html xmlns='http://www.w3.org/1999/xhtml' xml:lang='en'>";
    "    <head>";
    "        <meta http-equiv='Content-Type' content='text/html; charset=UTF-8' />";
    "        <meta name='calibre:cover' content='true' />";
    "        <title>Cover</title>";
    "        <style type='text/css' title='override_css'>";
    "            @page {padding: 0pt; margin:0pt}";
    "            body { text-align: center; padding:0pt; margin: 0pt; }";
    "        </style>";
    "    </head>";
    "    <body>";
    "        <div>";
    "            <svg version='1.1' xmlns='http://www.w3.org/2000/svg'";
    "                xmlns:xlink='http://www.w3.org/1999/xlink'";
    "                width='100%%' height='100%%' viewBox='__viewbox__'";
    "                preserveAspectRatio='__ar__'>";
    "                <image width='__width__' height='__height__' xlink:href='%s'/>";
    "            </svg>";
    "        </div>";
    "    </body>";
    "</html>"
  ].

Definition NONSVG_TEMPLATE : string :=
  template_lines [
    "<html xmlns='http://www.w3.org/1999/xhtml' xml:lang='en'>";
    "    <head>";
    "        <meta http-equiv='Content-Type' content='text/html; charset=UTF-8' />";
    "        <meta name='calibre:cover' content='true' />";
    "        <title>Cover</title>";
    "        <style type='text/css' title='override_css'>";
    "            @page {padding: 0pt; margin:0pt}";
    "            body { text-align: center; padding:0pt; margin: 0pt }";
    "            div { padding:0pt; margin: 0pt }";
    "            img { padding:0pt; margin: 0pt }";
    "        </style>";
    "    </head>";
    "    <body>";
    "        <div>";
    "            <img src='%s' alt='cover' __style__ />";
    "        </div>";
    "    </body>";
    "</html>"
  ].

(** ** The book: metadata, manifest, guide and spine

    The book's classes live in [ebooks/oeb/base.py], which is not part of
    the sources at hand; they are modelled here from the specification's
    description of their interface. *)

(** Modelled from the spec: a manifest item is one resource of the package,
    with an id, an href, a media type and a content payload. The module of
    the class is missing; for a page that [etree.fromstring] parsed, [data]
    holds the markup the tree was parsed from. *)
Record Item : Type := {
  item_id : string;
  item_href : string;
  media_type : option string;
  data : string
}.

(** Modelled from the spec: a guide reference is a named pointer with an
    href, a title and a relation code. The class is missing. *)
Record Reference : Type := {
  href : string;
  ref_title : string;
  ref_relation : string
}.

Definition set_href (h : string) (r : Reference) : Reference :=
  {| href := h; ref_title := ref_title r; ref_relation := ref_relation r |}.

(** Modelled from the spec: the manifest, with its items in the order they
    were added and the reverse lookup [hrefs] from href to item. The class
    is missing. *)
Record Manifest : Type := {
  items : list Item;
  hrefs : gmap string Item
}.

(** Modelled from the spec: the metadata fields that [default_cover] reads,
    each list-like and read at its first element. [role] is the role of a
    creator, [name] what [str()] gives for it. The class is missing. *)
Record Creator : Type := {
  name : string;
  role : string
}.

Record Metadata : Type := {
  title : list string;
  creator : list Creator;
  series : list string;
  series_index : list pyval
}.

(** Modelled from the spec: the book, with the guide as a mapping from
    reference names to references and the spine as the ordered reading
    sequence, each entry with its [linear] flag. The class is missing. *)
Record OEBBook : Type := {
  metadata : Metadata;
  guide : gmap string Reference;
  manifest : Manifest;
  spine : list (Item * bool)
}.

(** Modelled from the spec: [manifest.add(id, href, media_type, data)]
    registers a new item and returns it. The method is missing. *)
Definition manifest_add (m : Manifest) (id h : string)
    (mt : option string) (d : string) : Manifest * Item :=
  let item := {| item_id := id; item_href := h; media_type := mt; data := d |} in
  ({| items := items m ++ [item]; hrefs := <[h := item]> (hrefs m) |}, item).

(** Modelled from the spec: [spine.insert(index, item, linear)] inserts an
    entry at [index], as [list.insert] does. The method is missing. *)
Definition spine_insert (sp : list (Item * bool)) (index : nat)
    (item : Item) (linear : bool) : list (Item * bool) :=
  take index sp ++ (item, linear) :: drop index sp.

(** Modelled from the spec: [guide.add(name, title, relation)] creates the
    reference [name]; it points nowhere until its href is assigned. The
    method is missing. *)
Definition guide_add (g : gmap string Reference) (nm ttl rel : string)
    : gmap string Reference :=
  <[nm := {| href := ""; ref_title := ttl; ref_relation := rel |}]> g.

(** The collaborators of the module whose code is not at hand; they are
    parameters of the development. *)
Class Collaborators : Type := {
  (** [manifest.generate(id, href)]: an id and an href, made from the
      given base names, that the manifest does not use yet *)
  generate : Manifest → string → string → string * string;
  (** [guess_type(name)] of [utils/mimetypes.py]: media type and encoding *)
  guess_type : string → option string * option string;
  (** [urldefrag(url)] of [ebooks/oeb/base.py]: the url without its
      fragment, and the fragment *)
  urldefrag : string → string * string;
  (** [etree.fromstring(markup)] of lxml: [None] when the markup parses,
      or the exception that the parser raises *)
  fromstring_error : string → option exn
}.

(** ** [CoverManager] *)

Record CoverManager : Type := {
  no_default_cover : bool;
  no_svg_cover : bool;
  preserve_aspect_ratio : bool;
  svg_template : string;
  non_svg_template : string
}.

Definition set_svg_template (t : string) (c : CoverManager) : CoverManager :=
  {| no_default_cover := no_default_cover c;
     no_svg_cover := no_svg_cover c;
     preserve_aspect_ratio := preserve_aspect_ratio c;
     svg_template := t;
     non_svg_template := non_svg_template c |}.

(** The state that a call reads and writes: the instance, the book that
    [self.oeb] refers to, and the messages sent to [logging]. *)
Record World : Type := {
  self : CoverManager;
  oeb : OEBBook;
  log : list string
}.

Definition with_self (f : CoverManager → CoverManager) (w : World) : World :=
  {| self := f (self w); oeb := oeb w; log := log w |}.

Definition with_oeb (f : OEBBook → OEBBook) (w : World) : World :=
  {| self := self w; oeb := f (oeb w); log := log w |}.

Definition with_log (f : list string → list string) (w : World) : World :=
  {| self := self w; oeb := oeb w; log := f (log w) |}.

Definition set_manifest (m : Manifest) (b : OEBBook) : OEBBook :=
  {| metadata := metadata b; guide := guide b; manifest := m; spine := spine b |}.

Definition set_spine (sp : list (Item * bool)) (b : OEBBook) : OEBBook :=
  {| metadata := metadata b; guide := guide b; manifest := manifest b; spine := sp |}.

Definition set_guide (g : gmap string Reference) (b : OEBBook) : OEBBook :=
  {| metadata := metadata b; guide := g; manifest := manifest b; spine := spine b |}.

(** A method body: it runs in a state, may change it, and returns a value
    or raises. What it changed before raising stays changed. *)
Definition M (A : Type) : Type := World → World * result A.

Definition ret {A : Type} (a : A) : M A := λ w, (w, Ok a).

Definition bind {A B : Type} (m : M A) (k : A → M B) : M B :=
  λ w, match m w with
       | (w', Ok a) => k a w'
       | (w', Raise e) => (w', Raise e)
       end.

Definition lift {A : Type} (r : result A) : M A := λ w, (w, r).

Definition gets {A : Type} (f : World → A) : M A := λ w, (w, Ok (f w)).

Definition modify (f : World → World) : M unit := λ w, (f w, Ok tt).

#[global] Instance M_ret : MRet M := @ret.

#[global] Instance M_bind : MBind M := λ A B k m, bind m k.

Section CoverManager.
Context `{Builtins} `{Collaborators}.

(** [__init__(no_default_cover, no_svg_cover, preserve_aspect_ratio,
    fixed_size)]; the two values of [fixed_size] are turned into text by
    [%s], that is by [str()]. *)
Definition init (no_default no_svg preserve : bool)
    (fixed_size : option (pyval * pyval)) : CoverManager :=
  let ar := if preserve then "xMidYMid meet" else "none" in
  let style :=
    match fixed_size with
    | None => "style=" +:+ dq +:+ "height: 100%%" +:+ dq
    | Some (width, height) =>
        "style=" +:+ dq +:+ "height: " +:+ py_str width
          +:+ "; width: " +:+ py_str height +:+ dq
    end in
  {| no_default_cover := no_default;
     no_svg_cover := no_svg;
     preserve_aspect_ratio := preserve;
     svg_template := replace SVG_TEMPLATE "__ar__" ar;
     non_svg_template := replace NONSVG_TEMPLATE "__style__" style |}.

(** [default_cover(self)]: what is left of it computes the title, the
    authors and the series string, and returns [None]. *)
Definition default_cover : M (option string) :=
  no_default ← gets (λ w, no_default_cover (self w));
  if (no_default : bool) then mret None
  else
    m ← gets (λ w, metadata (oeb w));
    title ← lift (match title m with
                  | t :: _ => Ok t
                  | [] => Raise IndexError
                  end);
    let authors :=
      map name (filter (λ x, role x = "aut") (creator m)) in
    series_string ← lift (
      match series m, series_index m with
      | s :: _, i :: _ =>
          rbind (fmt_sidx i default_fmt true) (λ sidx,
            Ok (Some ("Book " +:+ sidx +:+ " of " +:+ s)))
      | _, _ => Ok None
      end);
    mret None.

(** [inspect_cover(self, href)] *)
Definition inspect_cover (h : string) : option Z * option Z := (None, None).

Definition warning (msg : string) : M unit :=
  modify (with_log (λ l, l ++ [msg])).

(** The cover image that the page is to show: the guide's, or else the
    default one. *)
Definition cover_reference : M (option string) :=
  g ← gets (λ w, guide (oeb w));
  match g !! "cover" with
  | Some r => mret (Some (href r))
  | None => default_cover
  end.

(** The dimensions of the image, or 600 by 800 with a warning. The call
    [self.inspect_cover(href)] is bound late; [inspect] is the method
    that it reaches. *)
Definition dimensions (inspect : string → option Z * option Z)
    (h : string) : M (Z * Z) :=
  match inspect h with
  | (Some width, Some height) => mret (width, height)
  | _ => warning "Failed to read cover dimensions";; mret (600, 800)
  end.

(** The three assignments to [self.svg_template]. *)
Definition fill_svg_template (width height : Z) : M unit :=
  modify (with_self (λ c, set_svg_template
    (replace (svg_template c) "__viewbox__"
       ("0 0 " +:+ pretty width +:+ " " +:+ pretty height)) c));;
  modify (with_self (λ c, set_svg_template
    (replace (svg_template c) "__width__" (pretty width)) c));;
  modify (with_self (λ c, set_svg_template
    (replace (svg_template c) "__height__" (pretty height)) c)).

(** The page is built from the template and added to the manifest. *)
Definition add_titlepage (h : string) : M Item :=
  templ ← gets (λ w, if no_svg_cover (self w)
                     then non_svg_template (self w)
                     else svg_template (self w));
  tp ← lift (format_str templ (unquote h));
  m ← gets (λ w, manifest (oeb w));
  let '(id, h') := generate m "titlepage" "titlepage.xhtml" in
  let mt := fst (guess_type "t.xhtml") in
  match fromstring_error tp with
  | Some e => lift (Raise e)
  | None =>
      let '(m', item) := manifest_add m id h' mt tp in
      modify (with_oeb (set_manifest m'));;
      mret item
  end.

(** The template path of [insert_cover]; [None] is its early [return]. *)
Definition make_titlepage (inspect : string → option Z * option Z)
    : M (option Item) :=
  cover_href ← cover_reference;
  match cover_href with
  | None => mret None
  | Some h =>
      '(width, height) ← dimensions inspect h;
      fill_svg_template width height;;
      item ← add_titlepage h;
      mret (Some item)
  end.

(** The other path: the item that the guide's titlepage refers to. *)
Definition existing_titlepage : M (option Item) :=
  g ← gets (λ w, guide (oeb w));
  r ← lift (match g !! "titlepage" with
            | Some r => Ok r
            | None => Raise KeyError
            end);
  m ← gets (λ w, manifest (oeb w));
  match hrefs m !! fst (urldefrag (href r)) with
  | Some item => mret (Some item)
  | None => lift (Raise KeyError)
  end.

(** The end of [insert_cover], under [if item is not None]. *)
Definition link_titlepage (item : Item) : M unit :=
  modify (with_oeb (λ b, set_spine (spine_insert (spine b) 0 item true) b));;
  g ← gets (λ w, guide (oeb w));
  (if bool_decide (g !! "cover" = None)
   then modify (with_oeb (λ b,
          set_guide (guide_add (guide b) "cover" "Title Page" "a") b))
   else mret tt);;
  modify (with_oeb (λ b,
    set_guide (alter (set_href (item_href item)) "cover" (guide b)) b));;
  g ← gets (λ w, guide (oeb w));
  if bool_decide (g !! "titlepage" = None) then mret tt
  else modify (with_oeb (λ b,
         set_guide (alter (set_href (item_href item)) "titlepage" (guide b)) b)).

Definition insert_cover_with (inspect : string → option Z * option Z)
    : M unit :=
  g ← gets (λ w, guide (oeb w));
  item ← (if bool_decide (g !! "titlepage" = None)
          then make_titlepage inspect
          else existing_titlepage);
  match item with
  | Some item => link_titlepage item
  | None => mret tt
  end.

(** [insert_cover(self)], with the class's own [inspect_cover]. *)
Definition insert_cover : M unit := insert_cover_with inspect_cover.

(** [__call__(self, oeb)] *)
Definition call (c : CoverManager) (book : OEBBook) (l : list string)
    : World * result unit :=
  insert_cover {| self := c; oeb := book; log := l |}.

End CoverManager.

(** ** Instances of the parameters, to run the model on examples

    Simple executable stand-ins for the builtins and collaborators: enough
    to evaluate the functions above on concrete books. The theorems below
    hold for every instance; these are used where a statement is checked
    at a concrete input. *)

Module Demo.

(** The exact decimal expansion of a float, which is also Python's text
    for the floats that have a short one ([2.5], [-1.0], [0.125]). *)
Definition exact_str (f : Float.t) : string :=
  match f with
  | S754_nan => "nan"
  | S754_infinity s => if s then "-inf" else "inf"
  | S754_zero s => if s then "-0.0" else "0.0"
  | S754_finite s m e =>
      let sign := if s then "-" else "" in
      if 0 <=? e then sign +:+ pretty (Zpos m * 2 ^ e) +:+ ".0"
      else
        let q := 2 ^ (- e) in
        let frac := (Zpos m mod q) * 5 ^ (- e) in
        let digits := pad_digits (Z.to_nat (- e)) frac in
        let fix strip (s : list ascii) : list ascii :=
          match s with
          | [] => []
          | c :: s' =>
              match strip s' with
              | [] => if bool_decide (c = "0"%char) then [] else [c]
              | r => c :: r
              end
          end in
        let kept := String.string_of_list_ascii (strip (String.list_ascii_of_string digits)) in
        sign +:+ pretty (Zpos m / q) +:+ "."
          +:+ (if bool_decide (kept = "") then "0" else kept)
  end.

(** Decimal literals [[sign] digits [. digits]], correctly rounded. *)
Definition decimal_literal (s : string) : option Float.t :=
  let '(neg, body) :=
    match s with
    | String "-" r => (true, r)
    | String "+" r => (false, r)
    | _ => (false, s)
    end in
  let '(whole, n1, rest) := read_digits 0 0 body in
  let '(mant, n2, rest') :=
    match rest with
    | String "." r => read_digits whole 0 r
    | _ => (whole, O, rest)
    end in
  if bool_decide (rest' = "") && negb ((n1 + n2 =? 0)%nat) then
    match mant with
    | Zpos p =>
        Some (SFdiv Float.prec Float.emax (S754_finite neg p 0)
                (S754_finite false (Z.to_pos (10 ^ Z.of_nat n2)) 0))
    | _ => Some (S754_zero neg)
    end
  else None.

Definition hex_value (c : ascii) : option Z :=
  let n := Z.of_nat (nat_of_ascii c) in
  if (48 <=? n) && (n <=? 57) then Some (n - 48)
  else if (65 <=? n) && (n <=? 70) then Some (n - 55)
  else if (97 <=? n) && (n <=? 102) then Some (n - 87)
  else None.

(** Percent-decoding of a string of bytes. *)
Fixpoint percent_decode (s : string) : string :=
  match s with
  | EmptyString => EmptyString
  | String "%" (String a (String b rest) as s') =>
      match hex_value a, hex_value b with
      | Some x, Some y =>
          String (ascii_of_nat (Z.to_nat (16 * x + y))) (percent_decode rest)
      | _, _ => String "%" (percent_decode s')
      end
  | String c s' => String c (percent_decode s')
  end.

#[export] Instance builtins : Builtins := {|
  float_str := exact_str;
  float_of_str := decimal_literal;
  format_float_ext := λ _ _, Raise ValueError;
  format_str_ext := λ _ _, Raise ValueError;
  unquote := percent_decode
|}.

(** The first of [base], [base1], [base2], ... that is not in [used]. *)
Definition fresh_name (used : list string) (base ext : string) : string :=
  let candidate (i : nat) :=
    if (i =? 0)%nat then base +:+ ext else base +:+ pretty i +:+ ext in
  match find (λ i, negb (bool_decide (candidate i ∈ used)))
             (seq 0 (S (length used))) with
  | Some i => candidate i
  | None => base +:+ ext
  end.

Definition numbered (m : Manifest) (id h : string) : string * string :=
  let base := String.substring 0 (String.length h - 6) h in
  (fresh_name (map item_id (items m)) id "",
   fresh_name (map item_href (items m)) base ".xhtml").

Fixpoint split_fragment (url : string) : string * string :=
  match url with
  | EmptyString => (EmptyString, EmptyString)
  | String "#" frag => (EmptyString, frag)
  | String c url' => let '(u, frag) := split_fragment url' in (String c u, frag)
  end.

#[export] Instance collaborators : Collaborators := {|
  generate := numbered;
  guess_type := λ _, (Some "application/xhtml+xml", None);
  urldefrag := split_fragment;
  fromstring_error := λ _, None
|}.

(** A book with a cover image and a guide reference to it. *)
Definition cover_item : Item :=
  {| item_id := "cover"; item_href := "cover.jpg";
     media_type := Some "image/jpeg"; data := "" |}.

Definition book : OEBBook :=
  {| metadata := {| title := ["A Title"]; creator := [];
                    series := []; series_index := [] |};
     guide := {[ "cover" := {| href := "cover.jpg"; ref_title := "Cover";
                               ref_relation := "" |} ]};
     manifest := {| items := [cover_item];
                    hrefs := {[ "cover.jpg" := cover_item ]} |};
     spine := [] |}.

(** A book whose guide already has a titlepage, with a fragment in its href. *)
Definition page_item : Item :=
  {| item_id := "tp"; item_href := "tp.xhtml";
     media_type := Some "application/xhtml+xml"; data := "" |}.

Definition book_with_titlepage : OEBBook :=
  {| metadata := {| title := ["A Title"]; creator := [];
                    series := []; series_index := [] |};
     guide := {[ "titlepage" := {| href := "tp.xhtml#top"; ref_title := "Title";
                                   ref_relation := "" |} ]};
     manifest := {| items := [page_item];
                    hrefs := {[ "tp.xhtml" := page_item ]} |};
     spine := [] |}.

(** Books without any reference in the guide: one in a series, with the
    index 2.5, and one whose metadata has no title. *)
Definition bare_book : OEBBook :=
  {| metadata := {| title := ["A Title"];
                    creator := [{| name := "An Author"; role := "aut" |}];
                    series := ["A Series"];
                    series_index := [VNum (PFloat (Float.make 5 (-1)))] |};
     guide := ∅;
     manifest := {| items := []; hrefs := ∅ |};
     spine := [] |}.

Definition untitled_book : OEBBook :=
  {| metadata := {| title := []; creator := [];
                    series := []; series_index := [] |};
     guide := ∅;
     manifest := {| items := []; hrefs := ∅ |};
     spine := [] |}.

(** An inspection that succeeds with 300 by 400. *)
Definition inspect_300_400 (h : string) : option Z * option Z :=
  (Some 300, Some 400).

Definition world (c : CoverManager) (b : OEBBook) : World :=
  {| self := c; oeb := b; log := [] |}.

End Demo.


(** ** The specification's words, as definitions to compare the code with *)

(** The table of the specification: M=1000, CM=900, D=500, CD=400, C=100,
    XC=90, L=50, XL=40, X=10, IX=9, V=5, IV=4, I=1. *)
Definition numeral_table : list (Z * string) :=
  [(1000, "M"); (900, "CM"); (500, "D"); (400, "CD"); (100, "C"); (90, "XC");
   (50, "L"); (40, "XL"); (10, "X"); (9, "IX"); (5, "V"); (4, "IV"); (1, "I")].

(** The entry of [table] with the largest value that is at most [n]. *)
Definition largest_le (n : Z) (table : list (Z * string)) : option (Z * string) :=
  fold_right
    (λ e best,
       if fst e <=? n then
         match best with
         | Some b => if fst b <? fst e then Some e else best
         | None => Some e
         end
       else best)
    None table.

(** The greedy decomposition: take the largest tabulated value that is at
    most the remaining amount, emit its symbol, subtract, until nothing
    remains. Every step subtracts at least one, so [n] steps are enough. *)
Fixpoint greedy (fuel : nat) (n : Z) : string :=
  match fuel with
  | O => ""
  | S fuel' =>
      if n <=? 0 then ""
      else
        match largest_le n numeral_table with
        | Some (d, r) => r +:+ greedy fuel' (n - d)
        | None => ""
        end
  end.

Definition greedy_numeral (n : Z) : string := greedy (Z.to_nat n) n.

(** The standard reading of a Roman numeral: a symbol counts negatively
    when the symbol after it is worth more. *)
Definition symbol_value (c : ascii) : option Z :=
  match c with
  | "I"%char => Some 1
  | "V"%char => Some 5
  | "X"%char => Some 10
  | "L"%char => Some 50
  | "C"%char => Some 100
  | "D"%char => Some 500
  | "M"%char => Some 1000
  | _ => None
  end.

Fixpoint symbol_values (s : string) : option (list Z) :=
  match s with
  | EmptyString => Some []
  | String c s' =>
      match symbol_value c, symbol_values s' with
      | Some v, Some vs => Some (v :: vs)
      | _, _ => None
      end
  end.

Fixpoint subtractive_sum (vs : list Z) : Z :=
  match vs with
  | [] => 0
  | v :: rest =>
      match rest with
      | w :: _ => if v <? w then - v else v
      | [] => v
      end + subtractive_sum rest
  end.

Definition roman_to_int (s : string) : option Z :=
  subtractive_sum <$> symbol_values s.

(** [num] is a number whose value is the integer [k]. *)
Definition num_value (num : pynum) (k : Z) : Prop :=
  match num with
  | PInt z => z = k
  | PFloat f => Float.compare_int f k = Some Eq
  end.

Definition is_integer (num : pynum) : Prop := ∃ k, num_value num k.

(** The inputs for which the specification asks for the decimal form:
    at most 0, at least 4000, or not an integer. *)
Definition decimal_case (num : pynum) : Prop :=
  num_le num 0 = true ∨ num_ge num 4000 = true ∨ ¬ is_integer num.

(** [needle] occurs in [hay]. *)
Definition occurs (needle hay : string) : Prop :=
  ∃ pre suf, hay = pre +:+ needle +:+ suf.

Fixpoint contains (needle hay : string) : bool :=
  match strip_prefix needle hay with
  | Some _ => true
  | None =>
      match hay with
      | EmptyString => false
      | String _ hay' => contains needle hay'
      end
  end.

(** The literal text of a template before and after its first argument. *)
Fixpoint before_arg (ps : list piece) : string :=
  match ps with
  | Lit c :: ps' => String c (before_arg ps')
  | _ => ""
  end.

Fixpoint after_arg (ps : list piece) : string :=
  match ps with
  | Lit _ :: ps' => after_arg ps'
  | Arg :: ps' => render ps' ""
  | [] => ""
  end.

(** The three substitutions that [insert_cover] makes in the SVG template. *)
Definition fill_dimensions (t : string) (width height : Z) : string :=
  replace
    (replace
       (replace t "__viewbox__"
          ("0 0 " +:+ pretty width +:+ " " +:+ pretty height))
       "__width__" (pretty width))
    "__height__" (pretty height).

(** The attribute [viewBox="0 0 <width> <height>"]. *)
Definition viewbox_attr (width height : Z) : string :=
  "viewBox=" +:+ dq +:+ "0 0 " +:+ pretty width +:+ " " +:+ pretty height +:+ dq.

(** The attribute [xlink:href="<target>"] of the SVG page's image. *)
Definition image_ref (target : string) : string :=
  "xlink:href=" +:+ dq +:+ target +:+ dq.

(** [Some pre] when [hay = pre +:+ needle]. *)
Fixpoint strip_suffix (needle hay : string) : option string :=
  if bool_decide (hay = needle) then Some EmptyString
  else
    match hay with
    | EmptyString => None
    | String c hay' => String c <$> strip_suffix needle hay'
    end.

(** The text before and after the argument of a template with exactly one
    [%s] (and otherwise only [%%] as a specifier). *)
Definition page_parts (templ : string) : option (string * string) :=
  match parse_template templ with
  | Some ps =>
      match count_args ps with
      | 1%nat => Some (before_arg ps, after_arg ps)
      | _ => None
      end
  | None => None
  end.

(** A template of an SVG page for the given dimensions: one argument, in
    the [xlink:href] attribute, after a [viewBox] with the dimensions. *)
Definition svg_page_template (templ : string) (width height : Z) : bool :=
  match page_parts templ with
  | Some (b, a) =>
      contains (viewbox_attr width height) b
      && bool_decide (is_Some (strip_suffix ("xlink:href=" +:+ dq) b))
      && bool_decide (is_Some (strip_prefix dq a))
  | None => false
  end.

(** The series string of [default_cover] is computable when there is no
    series, no index, or an index that [fmt_sidx] formats. *)
Definition series_formats `{Builtins} (m : Metadata) : Prop :=
  match series m, series_index m with
  | _ :: _, i :: _ => ∃ sidx, fmt_sidx i default_fmt true = Ok sidx
  | _, _ => True
  end.

(** The guide after [link_titlepage]. *)
Definition linked_guide (item : Item) (g : gmap string Reference)
    : gmap string Reference :=
  let g1 := if bool_decide (g !! "cover" = None)
            then guide_add g "cover" "Title Page" "a" else g in
  let g2 := alter (set_href (item_href item)) "cover" g1 in
  if bool_decide (g2 !! "titlepage" = None) then g2
  else alter (set_href (item_href item)) "titlepage" g2.

(** The item that [add_titlepage] registers for the markup [tp]. *)
Definition new_item `{Collaborators} (m : Manifest) (tp : string) : Item :=
  {| item_id := (generate m "titlepage" "titlepage.xhtml").1;
     item_href := (generate m "titlepage" "titlepage.xhtml").2;
     media_type := (guess_type "t.xhtml").1;
     data := tp |}.

(** The dimensions that the page is made for, and the log after they were
    determined. *)
Definition measured (inspect : string → option Z * option Z) (h : string)
    (l : list string) : Z * Z * list string :=
  match inspect h with
  | (Some width, Some height) => (width, height, l)
  | _ => (600, 800, l ++ ["Failed to read cover dimensions"])
  end.

(** The book [b'] is the book [b] with [item] added as its titlepage: one
    more manifest item, named by [generate], first in the spine as a linear
    entry, and the target of the guide's cover reference. *)
Definition titlepage_inserted `{Collaborators} (b b' : OEBBook) (item : Item)
    : Prop :=
  items (manifest b') = items (manifest b) ++ [item]
  ∧ hrefs (manifest b') = <[item_href item := item]> (hrefs (manifest b))
  ∧ (item_id item, item_href item)
    = generate (manifest b) "titlepage" "titlepage.xhtml"
  ∧ spine b' = (item, true) :: spine b
  ∧ (∃ r', guide b' !! "cover" = Some r' ∧ href r' = item_href item)
  ∧ guide b' !! "titlepage" = None
  ∧ metadata b' = metadata b.

(** The SVG template of a fresh instance. *)
Definition fresh_svg (preserve : bool) : string :=
  replace SVG_TEMPLATE "__ar__" (if preserve then "xMidYMid meet" else "none").

(** What is checked of [roman] on an integer: its result is the greedy
    numeral, and the standard reading of it gives the integer back. *)
Definition roman_check `{Builtins} (n : Z) : bool :=
  match roman (PInt n) with
  | Ok s =>
      bool_decide (s = greedy_numeral n)
      && bool_decide (roman_to_int s = Some n)
  | Raise _ => false
  end.

(** A float of Python is a valid binary64 value. *)
Definition float_valid (f : Float.t) : Prop :=
  valid_binary Float.prec Float.emax f = true.

(** What is checked of [roman] on the floats whose value is the integer [k]:
    the mantissa [k * 2^j] has 53 bits for one [j] from 41 to 52. *)
Definition roman_float_check `{Builtins} (k : Z) : bool :=
  forallb
    (λ j : nat,
       let m := k * 2 ^ Z.of_nat j in
       if (2 ^ 52 <=? m) && (m <? 2 ^ 53) then
         match roman (PFloat (S754_finite false (Z.to_pos m) (- Z.of_nat j))) with
         | Ok s => bool_decide (s = greedy_numeral k)
         | Raise _ => false
         end
       else true)
    (seq 41 12).

(** The numbers of Python: any [int], and the valid floats. *)
Definition num_valid (num : pynum) : Prop :=
  match num with
  | PInt _ => True
  | PFloat f => float_valid f
  end.

Section Reachable.
Context `{Builtins} `{Collaborators}.

(** The instances that this module can produce from [fresh]: the
    constructed instance itself, and what a call leaves of such an
    instance, on any book. *)
Inductive reachable (fresh : CoverManager) : CoverManager → Prop :=
  | reach_init : reachable fresh fresh
  | reach_call c book l :
      reachable fresh c →
      reachable fresh (self (fst (call c book l))).

End Reachable.

(** ** Further vocabulary: what the loops of [roman] compute, the shape of
    a numeral, and the parts of the two pages *)

(** What the two loops of [roman] compute on an [int]: for each entry of
    the table in turn, as many copies of its symbol as its value goes into
    what remains. *)
Fixpoint quotients (table : list (Z * string)) (n : Z) : list string :=
  match table with
  | [] => []
  | (d, r) :: table' =>
      replicate (Z.to_nat (n / d)) r ++ quotients table' (n mod d)
  end.

Fixpoint remainder (table : list (Z * string)) (n : Z) : Z :=
  match table with
  | [] => n
  | (d, _) :: table' => remainder table' (n mod d)
  end.

(** The longest run of one character in a string. *)
Fixpoint longest_run (prev : option ascii) (run best : nat) (s : string) : nat :=
  match s with
  | EmptyString => Nat.max run best
  | String c s' =>
      if bool_decide (prev = Some c)
      then longest_run (Some c) (S run) best s'
      else longest_run (Some c) 1 (Nat.max run best) s'
  end.

(** What is checked of the shape of a numeral. *)
Definition roman_shape_check `{Builtins} (n : Z) : bool :=
  match roman (PInt n) with
  | Ok s =>
      (1 <=? String.length s)%nat && (String.length s <=? 15)%nat
      && (longest_run None 0 0 s <=? 3)%nat
  | Raise _ => false
  end.

(** A template of the plain page: one argument, in the [src] attribute of
    an [img] element with the style [height: 100%], and no [svg] element
    before or after it. *)
Definition plain_page_template (templ : string) : bool :=
  match page_parts templ with
  | Some (b, a) =>
      bool_decide (is_Some (strip_suffix ("<img src=" +:+ dq) b))
      && bool_decide (is_Some (strip_prefix
           (dq +:+ " alt=" +:+ dq +:+ "cover" +:+ dq +:+ " style=" +:+ dq
              +:+ "height: 100%" +:+ dq +:+ " />") a))
      && negb (contains "<svg" b) && negb (contains "<svg" a)
  | None => false
  end.

(** A template of a page without a [viewBox]: one argument, and no
    [viewBox] in the text before or after it. *)
Definition no_viewbox_template (templ : string) : bool :=
  match page_parts templ with
  | Some (b, a) => negb (contains "viewBox" b) && negb (contains "viewBox" a)
  | None => false
  end.

(** The attributes of the SVG page that do not depend on the book: the
    size of the [svg] element, the aspect-ratio keyword chosen at
    construction and the dimensions of the image. *)
Definition svg_page_attributes (preserve : bool) (width height : Z)
    : list string :=
  [ "width=" +:+ dq +:+ "100%" +:+ dq +:+ " height=" +:+ dq +:+ "100%" +:+ dq;
    "preserveAspectRatio=" +:+ dq
      +:+ (if preserve then "xMidYMid meet" else "none") +:+ dq;
    "<image width=" +:+ dq +:+ pretty width +:+ dq
      +:+ " height=" +:+ dq +:+ pretty height +:+ dq ].

Definition svg_attributes_template (templ : string) (preserve : bool)
    (width height : Z) : bool :=
  match page_parts templ with
  | Some (b, _) =>
      forallb (λ attr, contains attr b) (svg_page_attributes preserve width height)
  | None => false
  end.

(** The text of a string before and after the first place where [marker]
    stands. *)
Fixpoint before_marker (marker s : string) : string :=
  match strip_prefix marker s with
  | Some _ => EmptyString
  | None =>
      match s with
      | EmptyString => EmptyString
      | String c s' => String c (before_marker marker s')
      end
  end.

Fixpoint after_marker (marker s : string) : string :=
  match strip_prefix marker s with
  | Some rest => rest
  | None =>
      match s with
      | EmptyString => EmptyString
      | String _ s' => after_marker marker s'
      end
  end.

(** The style that [__init__] makes of [fixed_size = (width, height)]. *)
Definition fixed_style `{Builtins} (width height : pyval) : string :=
  "style=" +:+ dq +:+ "height: " +:+ py_str width
    +:+ "; width: " +:+ py_str height +:+ dq.

(** Two more books to run the model on. *)
Module MoreDemo.

(** A book whose titlepage reference the manifest does not resolve. *)
Definition book_unresolved : OEBBook :=
  {| metadata := {| title := ["A Title"]; creator := [];
                    series := []; series_index := [] |};
     guide := {[ "titlepage" := {| href := "missing.xhtml"; ref_title := "Title";
                                   ref_relation := "" |} ]};
     manifest := {| items := []; hrefs := ∅ |};
     spine := [] |}.

(** A book in a series whose index is a text that is no number. *)
Definition book_bad_index : OEBBook :=
  {| metadata := {| title := ["A Title"]; creator := [];
                    series := ["A Series"]; series_index := [VStr "abc"] |};
     guide := ∅;
     manifest := {| items := []; hrefs := ∅ |};
     spine := [] |}.

End MoreDemo.

(** * Properties of [roman] *)

(** A property checked on each integer from 1 to 3999 holds for all of them. *)
Lemma checked_on_range (p : Z → bool) :
  forallb p (map Z.of_nat (seq 1 3999)) = true →
  ∀ n, 1 ≤ n ≤ 3999 → p n = true.
Proof.
  intros Hall n Hn. rewrite forallb_forall in Hall. apply Hall.
  apply in_map_iff. exists (Z.to_nat n). split; [lia|].
  apply in_seq. lia.
Qed.

Lemma symbol_values_digit_tail (c : ascii) (s : string) :
  symbol_values s = None → symbol_values (String c s) = None.
Proof. intros Hs. cbn. rewrite Hs. by destruct (symbol_value c). Qed.

Lemma symbol_values_pretty_N_go (x : N) (s : string) :
  symbol_values s = None → symbol_values (pretty_N_go x s) = None.
Proof.
  revert s. induction (N.lt_wf_0 x) as [x _ IH]; intros s Hs.
  destruct (decide (x = 0)%N) as [->|Hx].
  - by rewrite pretty_N_go_0.
  - rewrite pretty_N_go_step by lia.
    apply IH; [apply N.div_lt; lia|].
    by apply symbol_values_digit_tail.
Qed.

Lemma symbol_values_pretty_N_char (x : N) (s : string) :
  symbol_values (String (pretty_N_char x) s) = None.
Proof.
  unfold pretty_N_char. by repeat case_match.
Qed.

(** The decimal text of an integer is never a Roman numeral. *)
Lemma roman_to_int_pretty (z : Z) : roman_to_int (pretty z) = None.
Proof.
  assert (Hpos : ∀ p, symbol_values (pretty (N.pos p)) = None).
  { intros p. unfold pretty, pretty_N.
    rewrite decide_False by done.
    rewrite pretty_N_go_step by lia.
    apply symbol_values_pretty_N_go, symbol_values_pretty_N_char. }
  unfold roman_to_int.
  destruct z as [|p|p]; unfold pretty, pretty_Z.
  - done.
  - unfold pretty, pretty_positive. by rewrite Hpos.
  - unfold pretty, pretty_positive.
    change ("-" +:+ pretty (N.pos p)) with (String "-" (pretty (N.pos p))).
    by rewrite symbol_values_digit_tail.
Qed.

Section RomanFacts.
Context `{Builtins}.

(** On an [int] the inner loop computes a quotient and a remainder, and
    it is its guard that ends it, not the bound on its iterations. *)
Lemma while_ge_int (fuel : nat) (d : Z) (r : string) :
  0 < d →
  ∀ (z : Z) (res : list string),
    0 ≤ z < Z.of_nat fuel →
    while_ge fuel d r (PInt z) res
    = (PInt (z mod d), res ++ replicate (Z.to_nat (z / d)) r).
Proof.
  intros Hd. induction fuel as [|fuel IH]; intros z res Hz; [lia|].
  cbn [while_ge num_ge num_sub].
  destruct (Z.leb_spec d z) as [Hle|Hlt].
  - rewrite IH by lia.
    replace z with ((z - d) + 1 * d) at 3 4 by ring.
    rewrite Z_mod_plus_full, Z_div_plus_full by lia.
    rewrite Z2Nat.inj_add by (try apply Z.div_pos; lia).
    rewrite Nat.add_comm. cbn [Z.to_nat Pos.to_nat Pos.iter_op Nat.add replicate].
    by rewrite <- app_assoc.
  - rewrite Z.mod_small, Z.div_small by lia. cbn. by rewrite app_nil_r.
Qed.

Lemma while_ge_int_exit (d : Z) (r : string) (z : Z) (res : list string) :
  0 < d → 0 ≤ z < 4000 →
  num_ge (fst (while_ge 4000 d r (PInt z) res)) d = false.
Proof.
  intros Hd Hz. rewrite while_ge_int by lia. cbn.
  apply Z.leb_gt. by apply Z.mod_pos_bound.
Qed.

Lemma roman_check_all : forallb roman_check (map Z.of_nat (seq 1 3999)) = true.
Proof. vm_compute. reflexivity. Qed.

Lemma roman_numeral_in_range (n : Z) :
  1 ≤ n ≤ 3999 →
  roman (PInt n) = Ok (greedy_numeral n)
  ∧ roman_to_int (greedy_numeral n) = Some n.
Proof.
  intros Hn. pose proof (checked_on_range _ roman_check_all n Hn) as Hc.
  unfold roman_check in Hc. destruct (roman (PInt n)) as [s|]; [|done].
  apply andb_prop in Hc as [Hs Hp].
  apply bool_decide_eq_true in Hs, Hp. by subst.
Qed.
(** A float that is no NaN and lies strictly between 0 and 4000 is finite,
    so [int()] accepts it. *)
Lemma float_to_int_in_range (f : Float.t) :
  f ≠ S754_nan →
  Float.le_int f 0 = false → Float.ge_int f 4000 = false →
  ∃ k, Float.to_int f = Ok k.
Proof.
  intros Hnan Hle Hge. destruct f as [s|s| |s m e]; cbn; eauto.
  - destruct s; [by cbv in Hle|by cbv in Hge].
  - done.
Qed.

Lemma roman_fallback (num : pynum) :
  num ≠ PFloat S754_nan →
  decimal_case num →
  roman num = Ok (num_str num).
Proof.
  intros Hnan Hcase. unfold roman.
  destruct (num_le num 0) eqn:Hle; [done|].
  destruct (num_ge num 4000) eqn:Hge; [done|]. cbn [orb].
  destruct Hcase as [?|[?|Hint]]; [congruence..|].
  destruct num as [z|f].
  - destruct Hint. by exists z.
  - destruct (float_to_int_in_range f) as [k Hk]; [congruence|done..|].
    cbn [num_int]. rewrite Hk. cbn [rbind num_ne].
    destruct (Float.eq_int f k) eqn:Heq; [|done].
    destruct Hint. exists k. unfold Float.eq_int in Heq. cbn.
    by repeat case_match.
Qed.

(** On a NaN the guard of [roman] reaches [int(num)], which raises. *)
Lemma roman_nan : roman (PFloat S754_nan) = Raise ValueError.
Proof. reflexivity. Qed.

Lemma decimal_case_nan : decimal_case (PFloat S754_nan).
Proof. right; right. intros [k Hk]. discriminate Hk. Qed.

(** For an [int], [roman] returns a Roman numeral exactly in (0, 3999]. *)
Lemma roman_int_numeral_iff (n : Z) (s : string) :
  roman (PInt n) = Ok s →
  (roman_to_int s ≠ None ↔ 0 < n < 4000).
Proof.
  intros Hs. split.
  - intros Hnum. destruct (decide (0 < n < 4000)) as [|Hout]; [done|].
    rewrite roman_fallback in Hs; [|done|].
    + injection Hs as <-. cbn in Hnum. by rewrite roman_to_int_pretty in Hnum.
    + unfold decimal_case. cbn. lia.
  - intros Hn. destruct (roman_numeral_in_range n) as [Hr Hp]; [lia|].
    rewrite Hr in Hs. injection Hs as <-. by rewrite Hp.
Qed.

End RomanFacts.

(** ** [roman] on floats *)

Lemma digits2_pos_bounds (m : positive) :
  2 ^ (Z.pos (digits2_pos m) - 1) ≤ Z.pos m < 2 ^ Z.pos (digits2_pos m).
Proof.
  induction m as [m IH|m IH|]; cbn [digits2_pos]; [| |done].
  all: rewrite Pos2Z.inj_succ;
    replace (Z.succ (Z.pos (digits2_pos m)) - 1)
      with (Z.succ (Z.pos (digits2_pos m) - 1)) by lia;
    rewrite !Z.pow_succ_r by lia; lia.
Qed.

(** The representation of an integer in (0, 4000) as a valid float. *)
Lemma float_small_integer (s : bool) (m : positive) (e k : Z) :
  bounded Float.prec Float.emax m e = true →
  Float.compare_int (S754_finite s m e) k = Some Eq →
  0 < k < 4000 →
  s = false ∧ -52 ≤ e ≤ -41 ∧ Z.pos m = k * 2 ^ (- e)
  ∧ 2 ^ 52 ≤ Z.pos m < 2 ^ 53.
Proof.
  unfold bounded, canonical_mantissa, fexp, emin, Float.prec, Float.emax.
  intros Hb Hc Hk. apply andb_prop in Hb as [Hcan _].
  apply Z.eqb_eq in Hcan.
  pose proof (digits2_pos_bounds m) as Hd.
  set (D := Z.pos (digits2_pos m)) in *.
  assert (HD : 0 < D) by (unfold D; lia).
  unfold Float.compare_int in Hc. cbv zeta in Hc.
  destruct (Z.leb_spec 0 e) as [He|He].
  - exfalso.
    assert (Hv : cond_Zopp s (Z.pos m) * 2 ^ e = k)
      by (apply Z.compare_eq; congruence).
    assert (D = 53) by lia. 
    assert (H52 : 2 ^ 52 ≤ Z.pos m) by (replace 52 with (D - 1) by lia; lia).
    assert (0 < 2 ^ e) by (apply Z.pow_pos_nonneg; lia).
    destruct s; cbn [cond_Zopp] in Hv; [nia|].
    change (2 ^ 52) with 4503599627370496 in H52. nia.
  - assert (Hv : cond_Zopp s (Z.pos m) = k * 2 ^ (- e))
      by (apply Z.compare_eq; congruence).
    assert (HP : 0 < 2 ^ (- e)) by (apply Z.pow_pos_nonneg; lia).
    destruct s; cbn [cond_Zopp] in Hv; [nia|].
    split; [done|].
    assert (He' : e = -1074 ∨ D = 53) by lia.
    assert (Hm53 : D = 53).
    { destruct He' as [->|]; [exfalso|done].
      assert (D ≤ 53) by lia.
      assert (2 ^ D ≤ 2 ^ 53) by (apply Z.pow_le_mono_r; lia).
      change (- -1074) with 1074 in Hv.
      assert (2 ^ 53 < 2 ^ 1074) by done.
      nia. }
    rewrite Hm53 in Hd. change (53 - 1) with 52 in Hd.
    assert (Hlo : 41 ≤ - e).
    { destruct (Z.le_gt_cases 41 (- e)) as [|Hlt]; [done|exfalso].
      assert (2 ^ (- e) ≤ 2 ^ 40) by (apply Z.pow_le_mono_r; lia).
      change (2 ^ 40) with 1099511627776 in *.
      change (2 ^ 52) with 4503599627370496 in *. nia. }
    assert (Hhi : - e ≤ 52).
    { destruct (Z.le_gt_cases (- e) 52) as [|Hgt]; [done|exfalso].
      assert (2 ^ 53 ≤ 2 ^ (- e)) by (apply Z.pow_le_mono_r; lia).
      change (2 ^ 53) with 9007199254740992 in *. nia. }
    repeat split; try lia. 
Qed.

Section RomanFloat.
Context `{Builtins}.

Lemma roman_float_check_all :
  forallb roman_float_check (map Z.of_nat (seq 1 3999)) = true.
Proof. vm_compute. reflexivity. Qed.

(** On a float whose value is an integer in (0, 3999], [roman] returns the
    numeral of that integer: the subtractions of the loop are exact. *)
Lemma roman_float_numeral (f : Float.t) (k : Z) :
  float_valid f →
  Float.compare_int f k = Some Eq →
  0 < k ≤ 3999 →
  roman (PFloat f) = Ok (greedy_numeral k).
Proof.
  intros Hv Hc Hk. destruct f as [s|s| |s m e].
  - unfold Float.compare_int in Hc.
    assert (0 = k) by (apply Z.compare_eq; congruence). lia.
  - unfold Float.compare_int in Hc. by destruct s.
  - done.
  - destruct (float_small_integer s m e k Hv Hc) as (-> & He & Hm & Hr); [lia|].
    pose proof (checked_on_range _ roman_float_check_all k ltac:(lia)) as Hall.
    unfold roman_float_check in Hall. rewrite forallb_forall in Hall.
    specialize (Hall (Z.to_nat (- e))).
    rewrite Z2Nat.id in Hall by lia. rewrite <- Hm in Hall.
    rewrite Pos2Z.id in Hall. rewrite Z.opp_involutive in Hall.
    assert (Hin : In (Z.to_nat (- e)) (seq 41 12)) by (apply in_seq; lia).
    specialize (Hall Hin). cbv zeta in Hall.
    destruct Hr as [Hr1 Hr2].
    apply Z.leb_le in Hr1. apply Z.ltb_lt in Hr2.
    rewrite Hr1, Hr2 in Hall. cbn [andb] in Hall.
    destruct (roman _) as [r|]; [|done].
    apply bool_decide_eq_true in Hall. by subst.
Qed.

End RomanFloat.

(** * Properties of [fmt_sidx] *)

Section FmtSidxFacts.
Context `{Builtins}.

(** The float 2.5, that is 5 * 2^-1. *)
Lemma float_two_and_a_half :
  Float.make 5 (-1) = S754_finite false 5629499534213120 (-51)
  ∧ 5629499534213120 * 2 = 5 * 2 ^ 51.
Proof. split; reflexivity. Qed.

(** C9: [fmt_sidx] of [None] with [use_roman] gives "I", since [None] is
    treated as the index 1; and [fmt_sidx] of the float 2.5 with the
    default format gives "2.50". *)
Theorem fmt_sidx_none_and_fraction :
  fmt_sidx VNone default_fmt true = Ok "I"
  ∧ (∀ fmt use_roman,
       fmt_sidx VNone fmt use_roman = fmt_sidx (VNum (PInt 1)) fmt use_roman)
  ∧ (∀ use_roman,
       fmt_sidx (VNum (PFloat (Float.make 5 (-1)))) default_fmt use_roman
       = Ok "2.50").
Proof.
  split; [reflexivity|]. split; [reflexivity|].
  intros use_roman. by destruct use_roman.
Qed.

(** C3, what the code does instead: for a non-empty string that [float()]
    cannot convert, [float()] raises [ValueError], which [except TypeError]
    does not catch; [fmt_sidx] raises it, for every format and either value
    of [use_roman], where the claim has it return the string. *)
Theorem fmt_sidx_unconvertible_raises (s fmt : string) (use_roman : bool) :
  s ≠ "" →
  float_of_str s = None →
  fmt_sidx (VStr s) fmt use_roman = Raise ValueError.
Proof.
  intros Hs Hf. unfold fmt_sidx. cbn [none_or_empty].
  rewrite bool_decide_eq_false_2 by done.
  cbn [py_float]. by rewrite Hf.
Qed.

(** The branch of [except TypeError]: an object that [float()] rejects. *)
Lemma fmt_sidx_other_object (repr fmt : string) (use_roman : bool) :
  fmt_sidx (VObj repr) fmt use_roman = Ok repr.
Proof. reflexivity. Qed.

End FmtSidxFacts.

(** * Strings and templates *)

Lemma append_cons (c : ascii) (a b : string) :
  String c a +:+ b = String c (a +:+ b).
Proof. reflexivity. Qed.

Lemma append_assoc (a b c : string) : (a +:+ b) +:+ c = a +:+ b +:+ c.
Proof.
  induction a as [|x a IH]; [done|].
  rewrite !append_cons. by rewrite IH.
Qed.

Lemma strip_prefix_spec (p s rest : string) :
  strip_prefix p s = Some rest → s = p +:+ rest.
Proof.
  revert s. induction p as [|a p IH]; intros s Hs; cbn in *.
  - by injection Hs as ->.
  - destruct s as [|b s]; [done|]. case_bool_decide; [|done].
    subst. by rewrite (IH s).
Qed.

Lemma strip_suffix_spec (n hay pre : string) :
  strip_suffix n hay = Some pre → hay = pre +:+ n.
Proof.
  revert pre. induction hay as [|c hay IH]; intros pre Hs; cbn in Hs.
  - case_bool_decide; [|done]. injection Hs as <-. by subst.
  - case_bool_decide as Heq.
    + injection Hs as <-. by rewrite Heq.
    + destruct (strip_suffix n hay) as [p|]; [|done].
      injection Hs as <-. cbn. by rewrite (IH p).
Qed.

Lemma occurs_cons (n : string) (c : ascii) (hay : string) :
  occurs n hay → occurs n (String c hay).
Proof. intros (pre & suf & ->). by exists (String c pre), suf. Qed.

Lemma contains_occurs (n hay : string) : contains n hay = true → occurs n hay.
Proof.
  induction hay as [|c hay IH]; cbn [contains].
  - destruct (strip_prefix n "") as [rest|] eqn:Hp; [|done].
    intros _. exists "", rest. exact (strip_prefix_spec _ _ _ Hp).
  - destruct (strip_prefix n (String c hay)) as [rest|] eqn:Hp.
    + intros _. exists "", rest. exact (strip_prefix_spec _ _ _ Hp).
    + intros Hc. by apply occurs_cons, IH.
Qed.

Lemma strip_prefix_append (p rest : string) : strip_prefix p (p +:+ rest) = Some rest.
Proof.
  induction p as [|a p IH]; [done|].
  rewrite append_cons. cbn [strip_prefix].
  by rewrite bool_decide_eq_true_2.
Qed.

Lemma occurs_contains (n hay : string) : occurs n hay → contains n hay = true.
Proof.
  intros (pre & suf & ->). induction pre as [|c pre IH].
  - change ("" +:+ n +:+ suf) with (n +:+ suf).
    destruct (n +:+ suf) eqn:Hs; cbn [contains]; rewrite <- Hs;
      by rewrite strip_prefix_append.
  - rewrite append_cons. cbn [contains]. by destruct (strip_prefix n _).
Qed.

Lemma occurs_append_l (n a b : string) : occurs n a → occurs n (a +:+ b).
Proof.
  intros (pre & suf & ->). exists pre, (suf +:+ b).
  by rewrite !append_assoc.
Qed.

Lemma render_no_arg (ps : list piece) (arg : string) :
  count_args ps = 0%nat → render ps arg = render ps "".
Proof.
  induction ps as [|[c|] ps IH]; cbn; [done| |done].
  intros Hc. by rewrite IH.
Qed.

Lemma render_one_arg (ps : list piece) (arg : string) :
  count_args ps = 1%nat →
  render ps arg = before_arg ps +:+ arg +:+ after_arg ps.
Proof.
  induction ps as [|[c|] ps IH]; cbn; [done| |].
  - intros Hc. by rewrite IH.
  - intros Hc. injection Hc as Hc. by rewrite (render_no_arg ps arg).
Qed.

Section PageFacts.
Context `{Builtins}.

Lemma format_str_parts (templ b a arg : string) :
  page_parts templ = Some (b, a) →
  format_str templ arg = Ok (b +:+ arg +:+ a).
Proof.
  unfold page_parts, format_str. intros Hp.
  destruct (parse_template templ) as [ps|]; [|done].
  destruct (count_args ps) as [|[|k]] eqn:Hc; try done.
  injection Hp as <- <-. by rewrite render_one_arg.
Qed.

(** What an SVG page template gives for any image reference. *)
Lemma svg_page_template_spec (templ : string) (width height : Z) (target : string) :
  svg_page_template templ width height = true →
  ∃ tp, format_str templ target = Ok tp
        ∧ occurs (viewbox_attr width height) tp
        ∧ occurs (image_ref target) tp.
Proof.
  unfold svg_page_template. intros Hok.
  destruct (page_parts templ) as [[b a]|] eqn:Hp; [|done].
  apply andb_prop in Hok as [Hok Ha]. apply andb_prop in Hok as [Hv Hb].
  apply bool_decide_eq_true in Ha as [a0 Ha], Hb as [b0 Hb].
  apply strip_prefix_spec in Ha. apply strip_suffix_spec in Hb.
  exists (b +:+ target +:+ a). split; [by apply format_str_parts|]. split.
  - by apply occurs_append_l, contains_occurs.
  - exists b0, a0. rewrite Hb, Ha. unfold image_ref.
    by rewrite !append_assoc.
Qed.
End PageFacts.

(** * Properties of [CoverManager] *)

Ltac run_method :=
  unfold mbind, M_bind, mret, M_ret, bind, ret, gets, modify, lift, warning;
  cbn [fst snd self oeb log with_self with_oeb with_log].

Section CoverFacts.
Context `{Builtins} `{Collaborators}.
Implicit Types (w : World) (inspect : string → option Z * option Z).

Lemma default_cover_frame w :
  default_cover w = (w, Ok None) ∨ ∃ e, default_cover w = (w, Raise e).
Proof.
  unfold default_cover. run_method.
  destruct (no_default_cover (self w)); [by left|].
  destruct (title (metadata (oeb w))); [right; by eexists|].
  destruct (series (metadata (oeb w))); [by left|].
  destruct (series_index (metadata (oeb w))) as [|i ?]; [by left|].
  destruct (fmt_sidx i default_fmt true); cbn; [by left|right; by eexists].
Qed.

Lemma default_cover_suppressed w :
  no_default_cover (self w) = true → default_cover w = (w, Ok None).
Proof. intros Hs. unfold default_cover. run_method. by rewrite Hs. Qed.

Lemma default_cover_returns w :
  title (metadata (oeb w)) ≠ [] →
  series_formats (metadata (oeb w)) →
  default_cover w = (w, Ok None).
Proof.
  intros Ht Hs. unfold default_cover, series_formats in *. run_method.
  destruct (no_default_cover (self w)); [done|].
  destruct (title (metadata (oeb w))); [done|].
  destruct (series (metadata (oeb w))); [done|].
  destruct (series_index (metadata (oeb w))) as [|i ?]; [done|].
  destruct Hs as [sidx ->]. done.
Qed.

Lemma default_cover_untitled w :
  no_default_cover (self w) = false →
  title (metadata (oeb w)) = [] →
  default_cover w = (w, Raise IndexError).
Proof. intros Hs Ht. unfold default_cover. run_method. by rewrite Hs, Ht. Qed.

(** With neither reference in the guide, [insert_cover] does what
    [default_cover] does and nothing else. *)
Lemma insert_cover_without_references inspect w :
  guide (oeb w) !! "cover" = None →
  guide (oeb w) !! "titlepage" = None →
  insert_cover_with inspect w
  = (w, match snd (default_cover w) with
        | Ok _ => Ok tt
        | Raise e => Raise e
        end).
Proof.
  intros Hc Ht. unfold insert_cover_with, make_titlepage, cover_reference.
  run_method. rewrite Ht. cbn. rewrite Hc.
  destruct (default_cover_frame w) as [->|[e ->]]; done.
Qed.

(** What the end of [insert_cover] does with the chosen item. *)
Lemma link_titlepage_run (item : Item) w :
  link_titlepage item w
  = ({| self := self w;
        oeb := {| metadata := metadata (oeb w);
                  guide := linked_guide item (guide (oeb w));
                  manifest := manifest (oeb w);
                  spine := (item, true) :: spine (oeb w) |};
        log := log w |}, Ok tt).
Proof.
  unfold link_titlepage, linked_guide. run_method.
  destruct w as [c [md g m sp] l]. cbn.
  destruct (bool_decide (g !! "cover" = None)); cbn;
    case_match; reflexivity.
Qed.

Lemma linked_guide_cover (item : Item) (g : gmap string Reference) :
  ∃ r, linked_guide item g !! "cover" = Some r ∧ href r = item_href item.
Proof.
  unfold linked_guide.
  set (g1 := if bool_decide (g !! "cover" = None)
             then guide_add g "cover" "Title Page" "a" else g).
  assert (Hg1 : is_Some (g1 !! "cover")).
  { unfold g1, guide_add. case_bool_decide as Hc.
    - rewrite lookup_insert_eq. by eexists.
    - by destruct (g !! "cover"); [eexists|]. }
  destruct Hg1 as [r Hr].
  exists (set_href (item_href item) r). split; [|done].
  case_bool_decide.
  - by rewrite lookup_alter_eq, Hr.
  - rewrite lookup_alter_ne by done. by rewrite lookup_alter_eq, Hr.
Qed.

Lemma linked_guide_titlepage (item : Item) (g : gmap string Reference) :
  linked_guide item g !! "titlepage"
  = set_href (item_href item) <$> g !! "titlepage".
Proof.
  unfold linked_guide.
  set (g1 := if bool_decide (g !! "cover" = None)
             then guide_add g "cover" "Title Page" "a" else g).
  assert (Hg1 : g1 !! "titlepage" = g !! "titlepage").
  { unfold g1, guide_add. case_bool_decide; [|done].
    by rewrite lookup_insert_ne. }
  assert (Hg2 : alter (set_href (item_href item)) "cover" g1 !! "titlepage"
                = g !! "titlepage") by (by rewrite lookup_alter_ne).
  case_bool_decide as Ht.
  - rewrite Hg2 in Ht |- *. by rewrite Ht.
  - by rewrite lookup_alter_eq, Hg2.
Qed.

Lemma linked_guide_other (item : Item) (g : gmap string Reference) k :
  k ≠ "cover" → k ≠ "titlepage" → linked_guide item g !! k = g !! k.
Proof.
  intros Hc Ht. unfold linked_guide, guide_add.
  case_bool_decide; case_bool_decide;
    repeat (rewrite lookup_alter_ne by done);
    try (rewrite lookup_insert_ne by done); done.
Qed.

(** The path of an existing titlepage. *)
Lemma insert_cover_existing inspect w (r : Reference) (item : Item) :
  guide (oeb w) !! "titlepage" = Some r →
  hrefs (manifest (oeb w)) !! (urldefrag (href r)).1 = Some item →
  insert_cover_with inspect w
  = ({| self := self w;
        oeb := {| metadata := metadata (oeb w);
                  guide := linked_guide item (guide (oeb w));
                  manifest := manifest (oeb w);
                  spine := (item, true) :: spine (oeb w) |};
        log := log w |}, Ok tt).
Proof.
  intros Ht Hi. unfold insert_cover_with, existing_titlepage. run_method.
  rewrite Ht. cbn. rewrite Ht, Hi. apply link_titlepage_run.
Qed.

(** A titlepage reference that the manifest does not resolve. *)
Lemma insert_cover_dangling inspect w (r : Reference) :
  guide (oeb w) !! "titlepage" = Some r →
  hrefs (manifest (oeb w)) !! (urldefrag (href r)).1 = None →
  insert_cover_with inspect w = (w, Raise KeyError).
Proof.
  intros Ht Hi. unfold insert_cover_with, existing_titlepage. run_method.
  rewrite Ht. cbn. by rewrite Ht, Hi.
Qed.

Lemma dimensions_run inspect (h : string) w :
  dimensions inspect h w
  = ({| self := self w; oeb := oeb w;
        log := (measured inspect h (log w)).2 |},
     Ok ((measured inspect h (log w)).1)).
Proof.
  unfold dimensions, measured. destruct w as [c b l].
  destruct (inspect h) as [[width|] [height|]]; reflexivity.
Qed.

Lemma fill_svg_template_run (width height : Z) w :
  fill_svg_template width height w
  = ({| self := set_svg_template
                  (fill_dimensions (svg_template (self w)) width height)
                  (self w);
        oeb := oeb w; log := log w |}, Ok tt).
Proof. destruct w as [[] b l]. reflexivity. Qed.

Lemma add_titlepage_run (h : string) w :
  add_titlepage h w
  = match format_str (if no_svg_cover (self w)
                      then non_svg_template (self w)
                      else svg_template (self w)) (unquote h) with
    | Raise e => (w, Raise e)
    | Ok tp =>
        match fromstring_error tp with
        | Some e => (w, Raise e)
        | None =>
            let item := new_item (manifest (oeb w)) tp in
            ({| self := self w;
                oeb := set_manifest
                         (manifest_add (manifest (oeb w)) (item_id item)
                            (item_href item) (media_type item) tp).1
                         (oeb w);
                log := log w |}, Ok item)
        end
    end.
Proof.
  unfold add_titlepage, new_item. run_method.
  destruct (format_str _ _) as [tp|e]; [|done]. cbn.
  destruct (generate _ _ _) as [id h']. cbn.
  destruct (fromstring_error tp); [done|].
  by destruct w.
Qed.

(** The template path, when the guide has a cover. *)
Lemma insert_cover_template_path inspect w (r : Reference) :
  guide (oeb w) !! "titlepage" = None →
  guide (oeb w) !! "cover" = Some r →
  insert_cover_with inspect w
  = let '(width, height, l') := measured inspect (href r) (log w) in
    let c' := set_svg_template
                (fill_dimensions (svg_template (self w)) width height)
                (self w) in
    let w' := {| self := c'; oeb := oeb w; log := l' |} in
    match format_str (if no_svg_cover c' then non_svg_template c'
                      else svg_template c') (unquote (href r)) with
    | Raise e => (w', Raise e)
    | Ok tp =>
        match fromstring_error tp with
        | Some e => (w', Raise e)
        | None =>
            let item := new_item (manifest (oeb w)) tp in
            ({| self := c';
                oeb := {| metadata := metadata (oeb w);
                          guide := linked_guide item (guide (oeb w));
                          manifest :=
                            {| items := items (manifest (oeb w)) ++ [item];
                               hrefs := <[item_href item := item]>
                                          (hrefs (manifest (oeb w))) |};
                          spine := (item, true) :: spine (oeb w) |};
                log := l' |}, Ok tt)
        end
    end.
Proof.
  intros Ht Hc. unfold insert_cover_with, make_titlepage, cover_reference.
  run_method. rewrite Ht. cbn. rewrite Hc.
  rewrite dimensions_run.
  destruct (measured inspect (href r) (log w)) as [[width height] l'].
  cbn [fst snd]. rewrite fill_svg_template_run. cbn [self oeb log].
  rewrite add_titlepage_run. cbn [self oeb log].
  destruct (format_str _ _) as [tp|e]; [|done].
  destruct (fromstring_error tp); [done|].
  cbn zeta. rewrite link_titlepage_run. reflexivity.
Qed.

End CoverFacts.

Section TemplateFacts.
Context `{Builtins} `{Collaborators}.
Implicit Types (w : World) (inspect : string → option Z * option Z).

Lemma svg_template_init (nd ns pr : bool) fs :
  svg_template (init nd ns pr fs) = fresh_svg pr.
Proof. unfold init, fresh_svg. cbn [svg_template]. reflexivity. Qed.

Lemma set_svg_template_twice (t1 t2 : string) (c : CoverManager) :
  set_svg_template t2 (set_svg_template t1 c) = set_svg_template t2 c.
Proof. reflexivity. Qed.

Lemma svg_template_set (t : string) (c : CoverManager) :
  svg_template (set_svg_template t c) = t.
Proof. reflexivity. Qed.

(** The fresh SVG template, filled, is a page template for the dimensions. *)
Lemma fresh_svg_filled_300_400 (pr : bool) :
  svg_page_template (fill_dimensions (fresh_svg pr) 300 400) 300 400 = true.
Proof. destruct pr; vm_compute; reflexivity. Qed.

Lemma fresh_svg_filled_600_800 (pr : bool) :
  svg_page_template (fill_dimensions (fresh_svg pr) 600 800) 600 800 = true.
Proof. destruct pr; vm_compute; reflexivity. Qed.

(** Filling a second time finds no placeholder left. *)
Lemma fill_dimensions_twice (pr : bool) :
  fill_dimensions (fill_dimensions (fresh_svg pr) 600 800) 600 800
  = fill_dimensions (fresh_svg pr) 600 800.
Proof. destruct pr; vm_compute; reflexivity. Qed.


(** The successful end of the template path adds the titlepage. *)
Lemma titlepage_inserted_intro (b : OEBBook) (tp : string) :
  guide b !! "titlepage" = None →
  let item := new_item (manifest b) tp in
  titlepage_inserted b
    {| metadata := metadata b;
       guide := linked_guide item (guide b);
       manifest := {| items := items (manifest b) ++ [item];
                      hrefs := <[item_href item := item]> (hrefs (manifest b)) |};
       spine := (item, true) :: spine b |}
    item.
Proof.
  intros Ht item. unfold titlepage_inserted. cbn.
  repeat split; try done.
  - unfold item, new_item. cbn. by destruct (generate _ _ _).
  - apply linked_guide_cover.
  - by rewrite linked_guide_titlepage, Ht.
Qed.

(** The template path on an instance whose SVG template, filled for the
    measured dimensions, is a page template for them. *)
Lemma insert_cover_svg_page inspect w (r : Reference) (width height : Z) :
  guide (oeb w) !! "titlepage" = None →
  guide (oeb w) !! "cover" = Some r →
  no_svg_cover (self w) = false →
  (measured inspect (href r) (log w)).1 = (width, height) →
  svg_page_template
    (fill_dimensions (svg_template (self w)) width height) width height = true →
  ∃ tp,
    occurs (viewbox_attr width height) tp
    ∧ occurs (image_ref (unquote (href r))) tp
    ∧ log (insert_cover_with inspect w).1
      = (measured inspect (href r) (log w)).2
    ∧ match fromstring_error tp with
      | None =>
          (insert_cover_with inspect w).2 = Ok tt
          ∧ ∃ item, data item = tp
              ∧ titlepage_inserted (oeb w)
                  (oeb (insert_cover_with inspect w).1) item
      | Some e =>
          (insert_cover_with inspect w).2 = Raise e
          ∧ oeb (insert_cover_with inspect w).1 = oeb w
      end.
Proof.
  intros Ht Hc Hsvg Hm Hpage.
  rewrite (insert_cover_template_path inspect w r Ht Hc).
  destruct (measured inspect (href r) (log w)) as [[wd ht] l'].
  cbn [fst snd] in Hm. injection Hm as -> ->. cbn zeta.
  destruct (self w) as [nd ns pr svg nonsvg] eqn:Hself.
  cbn [no_svg_cover svg_template] in Hsvg, Hpage.
  subst ns. cbn [set_svg_template no_svg_cover svg_template].
  destruct (svg_page_template_spec _ _ _ (unquote (href r)) Hpage)
    as (tp & -> & Hview & Href).
  exists tp. split; [done|]. split; [done|].
  destruct (fromstring_error tp) as [e|]; cbn [fst snd log oeb].
  - done.
  - split; [done|]. split; [done|].
    exists (new_item (manifest (oeb w)) tp). split; [done|].
    by apply titlepage_inserted_intro.
Qed.

Lemma measured_inspect_cover (h : string) (l : list string) :
  measured inspect_cover h l = (600, 800, l ++ ["Failed to read cover dimensions"]).
Proof. reflexivity. Qed.

(** What a call may do to the instance: nothing, or, on the template path
    with a cover in the guide, fill the SVG template. *)
Lemma insert_cover_self inspect w :
  self (insert_cover_with inspect w).1 = self w
  ∨ ∃ r, guide (oeb w) !! "titlepage" = None
         ∧ guide (oeb w) !! "cover" = Some r
         ∧ self (insert_cover_with inspect w).1
           = set_svg_template
               (fill_dimensions (svg_template (self w))
                  (measured inspect (href r) (log w)).1.1
                  (measured inspect (href r) (log w)).1.2)
               (self w).
Proof.
  destruct (guide (oeb w) !! "titlepage") as [r0|] eqn:Ht.
  - left. destruct (hrefs (manifest (oeb w)) !! (urldefrag (href r0)).1)
      as [item|] eqn:Hi.
    + by rewrite (insert_cover_existing inspect w r0 item).
    + by rewrite (insert_cover_dangling inspect w r0).
  - destruct (guide (oeb w) !! "cover") as [r|] eqn:Hc.
    + right. exists r. split; [done|]. split; [done|].
      rewrite (insert_cover_template_path inspect w r Ht Hc).
      destruct (measured inspect (href r) (log w)) as [[wd ht] l'].
      cbn zeta. cbn [fst snd].
      destruct (format_str _ _) as [tp|e]; [|done].
      by destruct (fromstring_error tp).
    + left. by rewrite insert_cover_without_references.
Qed.

(** The two forms of an instance that was constructed and then used, when
    filling its SVG template twice is filling it once: as constructed, or
    with the SVG template filled for 600 by 800. *)
Lemma reachable_forms_of (c0 c : CoverManager) :
  fill_dimensions (fill_dimensions (svg_template c0) 600 800) 600 800
  = fill_dimensions (svg_template c0) 600 800 →
  reachable c0 c →
  c = c0
  ∨ c = set_svg_template (fill_dimensions (svg_template c0) 600 800) c0.
Proof.
  intros Htwice. induction 1 as [|c book l Hreach IH]; [by left|].
  unfold call, insert_cover.
  destruct (insert_cover_self inspect_cover {| self := c; oeb := book; log := l |})
    as [Hsame|(r & _ & _ & Hfill)].
  - rewrite Hsame. exact IH.
  - rewrite Hfill. right. destruct IH as [Hc|Hc]; rewrite Hc.
    + reflexivity.
    + destruct c0. cbn in Htwice |- *. by rewrite Htwice.
Qed.

Lemma default_cover_flag (c1 c2 : CoverManager) (b : OEBBook) (l : list string) :
  no_default_cover c1 = no_default_cover c2 →
  (default_cover {| self := c1; oeb := b; log := l |}).2
  = (default_cover {| self := c2; oeb := b; log := l |}).2.
Proof.
  intros Hf. unfold default_cover. run_method. rewrite Hf.
  destruct (no_default_cover c2); cbn; [done|].
  destruct (title (metadata b)); cbn; [done|].
  destruct (series (metadata b)); cbn; [done|].
  destruct (series_index (metadata b)) as [|i ?]; cbn; [done|].
  by destruct (fmt_sidx i default_fmt true).
Qed.

(** A call on the used form of an instance does to the book what a call
    on the instance itself does. *)
Lemma call_filled_as_fresh (c0 : CoverManager) (book : OEBBook) (l : list string) :
  fill_dimensions (fill_dimensions (svg_template c0) 600 800) 600 800
  = fill_dimensions (svg_template c0) 600 800 →
  let used := set_svg_template (fill_dimensions (svg_template c0) 600 800) c0 in
  (call used book l).2 = (call c0 book l).2
  ∧ oeb (call used book l).1 = oeb (call c0 book l).1
  ∧ log (call used book l).1 = log (call c0 book l).1
  ∧ self (call used book l).1 = used.
Proof.
  intros Htwice used. unfold call, insert_cover.
  destruct (guide book !! "titlepage") as [r0|] eqn:Ht.
  - destruct (hrefs (manifest book) !! (urldefrag (href r0)).1)
      as [item|] eqn:Hi.
    + by rewrite !(insert_cover_existing inspect_cover _ r0 item).
    + by rewrite !(insert_cover_dangling inspect_cover _ r0).
  - destruct (guide book !! "cover") as [r|] eqn:Hc.
    + rewrite !(insert_cover_template_path inspect_cover _ r) by done.
      assert (Hsame : set_svg_template
                (fill_dimensions (svg_template used) 600 800) used = used).
      { unfold used. destruct c0. cbn in Htwice |- *. by rewrite Htwice. }
      cbn [self oeb log measured inspect_cover]. cbn zeta.
      rewrite Hsame. fold used.
      destruct (format_str _ _) as [tp|e]; [|done].
      by destruct (fromstring_error tp).
    + rewrite !insert_cover_without_references by done. cbn [fst snd oeb log self].
      split; [|done]. by rewrite (default_cover_flag used c0).
Qed.

End TemplateFacts.

(** * The claims about [roman] *)

(** A float that equals an integer compares with any integer as that
    integer does. *)
Lemma compare_int_value (f : Float.t) (k z : Z) :
  Float.compare_int f k = Some Eq →
  Float.compare_int f z = Some (k ?= z).
Proof.
  destruct f as [s|s| |s m e]; unfold Float.compare_int; try done.
  - intros Hk. assert (Hk' : (0 ?= k) = Eq) by congruence.
    apply Z.compare_eq in Hk'. by subst.
  - by destruct s.
  - cbv zeta. destruct (Z.leb_spec 0 e); intros Hk.
    + assert (Hk' : (cond_Zopp s (Z.pos m) * 2 ^ e ?= k) = Eq) by congruence.
      apply Z.compare_eq in Hk'. by rewrite Hk'.
    + assert (Hk' : (cond_Zopp s (Z.pos m) ?= k * 2 ^ (- e)) = Eq) by congruence.
      apply Z.compare_eq in Hk'. rewrite Hk'. f_equal.
      assert (HP : 0 < 2 ^ (- e)) by (apply Z.pow_pos_nonneg; lia).
      destruct (Z.compare_spec k z) as [->|Hlt|Hgt].
      * apply Z.compare_refl.
      * apply Z.compare_lt_iff. nia.
      * apply Z.compare_gt_iff. nia.
Qed.

Section RomanClaims.
Context `{Builtins}.

(** Any result of [roman] other than the decimal form is for a number
    whose value is an integer in (0, 3999]. *)
Lemma roman_other_result (num : pynum) (s : string) :
  roman num = Ok s → s ≠ num_str num →
  ∃ n, num_value num n ∧ 0 < n ≤ 3999.
Proof.
  unfold roman. intros Hr Hs.
  destruct (num_le num 0) eqn:Hle; [cbn [orb] in Hr; congruence|].
  destruct (num_ge num 4000) eqn:Hge; [cbn [orb] in Hr; congruence|].
  cbn [orb] in Hr. destruct num as [z|f].
  - exists z. split; [done|].
    cbn [num_le num_ge] in Hle, Hge. lia.
  - cbn [num_int num_le num_ge] in Hr, Hle, Hge.
    destruct (Float.to_int f) as [k|] eqn:Hk; [|done].
    cbn [rbind num_ne] in Hr. unfold Float.eq_int in Hr.
    destruct (Float.compare_int f k) as [c|] eqn:Hc;
      [destruct c|]; cbn [negb] in Hr; try congruence.
    exists k. split; [done|].
    unfold Float.le_int in Hle. unfold Float.ge_int in Hge.
    rewrite (compare_int_value f k 0 Hc) in Hle.
    rewrite (compare_int_value f k 4000 Hc) in Hge.
    destruct (Z.compare_spec k 0), (Z.compare_spec k 4000); try done; lia.
Qed.

(** C4: for every integer n with 1 <= n <= 3999, [roman] returns the
    numeral of the greedy decomposition over the table of the
    specification, and the standard reading of that numeral is n. *)
Theorem roman_greedy_roundtrip (n : Z) :
  1 ≤ n ≤ 3999 →
  roman (PInt n) = Ok (greedy_numeral n)
  ∧ roman_to_int (greedy_numeral n) = Some n.
Proof. apply roman_numeral_in_range. Qed.

(** C8, as amended: for every [int] and every [float] other than NaN,
    [roman] returns the decimal form [str(num)] whenever the number is at
    most 0, at least 4000 or not an integer; a result other than the
    decimal form is returned only for a number whose value is an integer in
    (0, 3999]; and for such a number the result is its Roman numeral. *)
Theorem roman_decimal_fallback (num : pynum) :
  num ≠ PFloat S754_nan →
  (decimal_case num → roman num = Ok (num_str num))
  ∧ (∀ s, roman num = Ok s → s ≠ num_str num →
          ∃ n, num_value num n ∧ 0 < n ≤ 3999)
  ∧ (∀ n, num_valid num → num_value num n → 0 < n ≤ 3999 →
          roman num = Ok (greedy_numeral n)
          ∧ roman_to_int (greedy_numeral n) = Some n).
Proof.
  intros Hnan. split; [by apply roman_fallback|].
  split; [apply roman_other_result|].
  intros n Hvalid Hvalue Hn.
  destruct (roman_numeral_in_range n) as [Hint Hback]; [lia|].
  split; [|exact Hback].
  destruct num as [z|f].
  - cbn [num_value] in Hvalue. by subst.
  - by apply roman_float_numeral.
Qed.

End RomanClaims.

(** * The claims about [insert_cover] *)

Section CoverClaims.
Context `{Builtins} `{Collaborators}.
Implicit Types (w : World) (inspect : string → option Z * option Z).

Lemma init_twice (nd ns pr : bool) fs :
  fill_dimensions
    (fill_dimensions (svg_template (init nd ns pr fs)) 600 800) 600 800
  = fill_dimensions (svg_template (init nd ns pr fs)) 600 800.
Proof. rewrite svg_template_init. apply fill_dimensions_twice. Qed.

Lemma no_svg_cover_init (nd ns pr : bool) fs :
  no_svg_cover (init nd ns pr fs) = ns.
Proof. reflexivity. Qed.

Lemma flags_set_svg_template (t : string) (c : CoverManager) :
  no_default_cover (set_svg_template t c) = no_default_cover c
  ∧ no_svg_cover (set_svg_template t c) = no_svg_cover c
  ∧ preserve_aspect_ratio (set_svg_template t c) = preserve_aspect_ratio c
  ∧ non_svg_template (set_svg_template t c) = non_svg_template c.
Proof. done. Qed.

(** C1, as amended: on a freshly constructed instance with
    [no_svg_cover] false, for every book whose guide has a cover reference
    with href H and no titlepage reference, when the inspection of H gives
    (300, 400), the page built has the viewBox "0 0 300 400" and refers to
    the unquoted H; when the parser accepts it, [insert_cover] adds exactly
    one manifest item, named by [generate] from "titlepage", with that page
    as its content, puts it first in the spine as a linear entry, and sets
    the href of the guide's cover reference to the item's href. *)
Theorem insert_cover_adds_svg_titlepage inspect (nd pr : bool) fs w
    (r : Reference) :
  self w = init nd false pr fs →
  guide (oeb w) !! "titlepage" = None →
  guide (oeb w) !! "cover" = Some r →
  inspect (href r) = (Some 300, Some 400) →
  ∃ tp,
    occurs (viewbox_attr 300 400) tp
    ∧ occurs (image_ref (unquote (href r))) tp
    ∧ log (insert_cover_with inspect w).1 = log w
    ∧ match fromstring_error tp with
      | None =>
          (insert_cover_with inspect w).2 = Ok tt
          ∧ ∃ item, data item = tp
              ∧ titlepage_inserted (oeb w)
                  (oeb (insert_cover_with inspect w).1) item
      | Some e =>
          (insert_cover_with inspect w).2 = Raise e
          ∧ oeb (insert_cover_with inspect w).1 = oeb w
      end.
Proof.
  intros Hself Ht Hc Hi.
  assert (Hm : measured inspect (href r) (log w) = (300, 400, log w))
    by (unfold measured; by rewrite Hi).
  destruct (insert_cover_svg_page inspect w r 300 400) as (tp & Hv & Hr & Hl & Hres);
    try done.
  - rewrite Hself. exact (no_svg_cover_init nd false pr fs).
  - by rewrite Hm.
  - rewrite Hself, svg_template_init. exact (fresh_svg_filled_300_400 pr).
  - exists tp. rewrite Hm in Hl. done.
Qed.

(** C2, as amended: a call leaves the flags and the plain template of the
    instance as [init] set them, and its SVG template either as
    constructed or filled for 600 by 800 (the class's own inspection never
    gives other dimensions); and a call on a used instance gives the same
    result, book and log as a call on a fresh instance with the same
    configuration. *)
Theorem insert_cover_keeps_configuration (nd ns pr : bool) fs
    (c : CoverManager) (book : OEBBook) (l : list string) :
  reachable (init nd ns pr fs) c →
  no_default_cover (self (call c book l).1) = nd
  ∧ no_svg_cover (self (call c book l).1) = ns
  ∧ preserve_aspect_ratio (self (call c book l).1) = pr
  ∧ non_svg_template (self (call c book l).1)
    = non_svg_template (init nd ns pr fs)
  ∧ (svg_template (self (call c book l).1) = svg_template (init nd ns pr fs)
     ∨ svg_template (self (call c book l).1)
       = fill_dimensions (svg_template (init nd ns pr fs)) 600 800)
  ∧ (call c book l).2 = (call (init nd ns pr fs) book l).2
  ∧ oeb (call c book l).1 = oeb (call (init nd ns pr fs) book l).1
  ∧ log (call c book l).1 = log (call (init nd ns pr fs) book l).1.
Proof.
  intros Hreach.
  pose proof (reach_call _ c book l Hreach) as Hafter.
  apply reachable_forms_of in Hafter; [|apply init_twice].
  apply reachable_forms_of in Hreach; [|apply init_twice].
  assert (Hflags : ∀ c', c' = init nd ns pr fs
      ∨ c' = set_svg_template
               (fill_dimensions (svg_template (init nd ns pr fs)) 600 800)
               (init nd ns pr fs) →
      no_default_cover c' = nd ∧ no_svg_cover c' = ns
      ∧ preserve_aspect_ratio c' = pr
      ∧ non_svg_template c' = non_svg_template (init nd ns pr fs)
      ∧ (svg_template c' = svg_template (init nd ns pr fs)
         ∨ svg_template c'
           = fill_dimensions (svg_template (init nd ns pr fs)) 600 800)).
  { intros c' [Hc'|Hc']; rewrite Hc'.
    - split; [reflexivity|]. split; [reflexivity|]. split; [reflexivity|].
      split; [reflexivity|]. left. reflexivity.
    - rewrite svg_template_set.
      destruct (flags_set_svg_template
        (fill_dimensions (svg_template (init nd ns pr fs)) 600 800)
        (init nd ns pr fs)) as (-> & -> & -> & ->).
      split; [reflexivity|]. split; [reflexivity|]. split; [reflexivity|].
      split; [reflexivity|]. right. reflexivity. }
  destruct (Hflags _ Hafter) as (F1 & F2 & F3 & F4 & F5).
  split; [exact F1|]. split; [exact F2|]. split; [exact F3|].
  split; [exact F4|]. split; [exact F5|].
  destruct Hreach as [Hc|Hc]; rewrite Hc.
  - split; [reflexivity|]. split; reflexivity.
  - destruct (call_filled_as_fresh _ book l (init_twice nd ns pr fs))
      as (H1 & H2 & H3 & _).
    split; [exact H1|]. split; [exact H2|exact H3].
Qed.

(** C5, as amended: for every book whose guide has a titlepage reference,
    [insert_cover] builds no page: the instance, the log and the manifest
    are as before. It looks the reference's href, without its fragment, up
    in the hrefs of the manifest: when an item is found, the run returns,
    that item is the first entry of the spine, as a linear entry, and the
    cover and titlepage references of the guide point to it; when none is
    found, the lookup raises [KeyError] and nothing is changed. *)
Theorem insert_cover_reuses_titlepage inspect w (r : Reference) :
  guide (oeb w) !! "titlepage" = Some r →
  self (insert_cover_with inspect w).1 = self w
  ∧ log (insert_cover_with inspect w).1 = log w
  ∧ manifest (oeb (insert_cover_with inspect w).1) = manifest (oeb w)
  ∧ match hrefs (manifest (oeb w)) !! (urldefrag (href r)).1 with
    | Some item =>
        (insert_cover_with inspect w).2 = Ok tt
        ∧ spine (oeb (insert_cover_with inspect w).1)
          = (item, true) :: spine (oeb w)
        ∧ spine (oeb (insert_cover_with inspect w).1) !! 0%nat
          = Some (item, true)
        ∧ (∃ r', guide (oeb (insert_cover_with inspect w).1) !! "cover"
                 = Some r'
                 ∧ href r' = item_href item)
        ∧ guide (oeb (insert_cover_with inspect w).1) !! "titlepage"
          = Some (set_href (item_href item) r)
    | None => insert_cover_with inspect w = (w, Raise KeyError)
    end.
Proof.
  intros Ht.
  destruct (hrefs (manifest (oeb w)) !! (urldefrag (href r)).1)
    as [item|] eqn:Hi.
  - rewrite (insert_cover_existing inspect w r item Ht Hi).
    cbn [fst snd self log oeb manifest spine guide].
    repeat (split; [done|]). split; [apply linked_guide_cover|].
    by rewrite linked_guide_titlepage, Ht.
  - by rewrite (insert_cover_dangling inspect w r Ht Hi).
Qed.

(** C6: for every book whose guide has neither a cover nor a titlepage
    reference, when [no_default_cover] is set, [insert_cover] returns and
    leaves the book, the instance and the log as they were. *)
Theorem insert_cover_suppressed_noop inspect w :
  guide (oeb w) !! "cover" = None →
  guide (oeb w) !! "titlepage" = None →
  no_default_cover (self w) = true →
  insert_cover_with inspect w = (w, Ok tt) ∧ insert_cover w = (w, Ok tt).
Proof.
  intros Hc Ht Hs. unfold insert_cover.
  rewrite !insert_cover_without_references by done.
  by rewrite default_cover_suppressed.
Qed.

(** When [default_cover] returns and when it raises. *)
Lemma default_cover_result w :
  default_cover w
  = (w, if no_default_cover (self w) then Ok None
        else match title (metadata (oeb w)) with
             | [] => Raise IndexError
             | _ :: _ =>
                 match series (metadata (oeb w)),
                       series_index (metadata (oeb w)) with
                 | _ :: _, i :: _ =>
                     match fmt_sidx i default_fmt true with
                     | Ok _ => Ok None
                     | Raise e => Raise e
                     end
                 | _, _ => Ok None
                 end
             end).
Proof.
  unfold default_cover. run_method.
  destruct (no_default_cover (self w)); [done|].
  destruct (title (metadata (oeb w))); [done|].
  destruct (series (metadata (oeb w))); [done|].
  destruct (series_index (metadata (oeb w))) as [|i ?]; [done|].
  by destruct (fmt_sidx i default_fmt true).
Qed.

(** C10, as amended: for every book and every configuration,
    [default_cover] changes nothing and never yields a cover: whenever it
    returns, it returns [None]. It returns exactly when [no_default_cover]
    is set or the metadata has a title and, if it has a series and a series
    index, [fmt_sidx] formats the first index; otherwise it raises:
    [IndexError] for metadata without a title, or what [fmt_sidx] raises on
    the first series index. So with neither a cover nor a titlepage
    reference in the guide, [insert_cover] changes nothing, whatever the
    flag: it returns when [default_cover] does and raises what
    [default_cover] raises; a run that changes the book had a cover or a
    titlepage reference in the guide. *)
Theorem default_cover_never_yields_cover inspect w :
  (default_cover w).1 = w
  ∧ (∀ h, (default_cover w).2 = Ok h → h = None)
  ∧ ((default_cover w).2 = Ok None
     ↔ no_default_cover (self w) = true
       ∨ (title (metadata (oeb w)) ≠ []
          ∧ series_formats (metadata (oeb w))))
  ∧ (∀ e, (default_cover w).2 = Raise e →
       no_default_cover (self w) = false
       ∧ ((title (metadata (oeb w)) = [] ∧ e = IndexError)
          ∨ (∃ s ss i rest,
               title (metadata (oeb w)) ≠ []
               ∧ series (metadata (oeb w)) = s :: ss
               ∧ series_index (metadata (oeb w)) = i :: rest
               ∧ fmt_sidx i default_fmt true = Raise e)))
  ∧ (guide (oeb w) !! "cover" = None →
     guide (oeb w) !! "titlepage" = None →
     (insert_cover_with inspect w).1 = w
     ∧ ((default_cover w).2 = Ok None →
        (insert_cover_with inspect w).2 = Ok tt)
     ∧ (∀ e, (default_cover w).2 = Raise e →
             (insert_cover_with inspect w).2 = Raise e))
  ∧ (oeb (insert_cover_with inspect w).1 ≠ oeb w →
     is_Some (guide (oeb w) !! "cover")
     ∨ is_Some (guide (oeb w) !! "titlepage")).
Proof.
  split; [by rewrite default_cover_result|].
  split.
  { destruct (default_cover_frame w) as [Hd|[e Hd]]; rewrite Hd; cbn [snd];
      congruence. }
  split.
  { rewrite default_cover_result. cbn [snd]. unfold series_formats.
    destruct (no_default_cover (self w)); [by split; [left|]|].
    destruct (title (metadata (oeb w))) as [|t ts].
    { split; [done|]. by intros [|[]]. }
    destruct (series (metadata (oeb w))) as [|s ss].
    { split; [by right|done]. }
    destruct (series_index (metadata (oeb w))) as [|i rest].
    { split; [by right|done]. }
    destruct (fmt_sidx i default_fmt true) as [sidx|e].
    - split; [|done]. intros _. right. split; [done|by exists sidx].
    - split; [done|]. by intros [|[_ [sidx ?]]]. }
  split.
  { intros e. rewrite default_cover_result. cbn [snd].
    destruct (no_default_cover (self w)); [done|].
    destruct (title (metadata (oeb w))) as [|t ts].
    { intros [= <-]. split; [done|]. by left. }
    destruct (series (metadata (oeb w))) as [|s ss]; [done|].
    destruct (series_index (metadata (oeb w))) as [|i rest]; [done|].
    destruct (fmt_sidx i default_fmt true) as [sidx|e'] eqn:Hf; [done|].
    intros [= <-]. split; [done|]. right. by exists s, ss, i, rest. }
  split.
  { intros Hc Ht. rewrite insert_cover_without_references by done.
    cbn [fst snd]. split; [done|].
    split; [by intros ->|]. by intros e ->. }
  intros Hchanged.
  destruct (guide (oeb w) !! "cover") as [c|] eqn:Hc; [left; by eexists|].
  destruct (guide (oeb w) !! "titlepage") as [t|] eqn:Ht; [right; by eexists|].
  rewrite insert_cover_without_references in Hchanged by done. done.
Qed.

End CoverClaims.

(** * Further properties of [roman] *)

Section RomanMore.
Context `{Builtins}.

Lemma for_coding_int (fuel : nat) (table : list (Z * string)) :
  Forall (λ e, 0 < e.1) table →
  ∀ (n : Z) (res : list string),
    0 ≤ n < Z.of_nat fuel →
    for_coding fuel table (PInt n) res
    = (PInt (remainder table n), res ++ quotients table n).
Proof.
  induction 1 as [|[d r] table Hd _ IH]; intros n res Hn.
  - cbn. by rewrite app_nil_r.
  - cbn [for_coding quotients remainder]. cbn [fst] in Hd.
    rewrite while_ge_int by done.
    rewrite IH.
    + by rewrite <- app_assoc.
    + pose proof (Z.mod_pos_bound n d Hd).
      pose proof (Z.mod_le n d). lia.
Qed.

Lemma coding_positive : Forall (λ e : Z * string, 0 < e.1) coding.
Proof. unfold coding. cbn [combine]. repeat constructor. Qed.

Lemma remainder_coding (n : Z) : remainder coding n = 0.
Proof.
  unfold coding. cbn [combine remainder]. apply Z.mod_1_r.
Qed.

(** X1: for every integer n with 0 < n < 4000, the numeral that [roman]
    returns is made, for each entry of the table in turn, of as many copies
    of the entry's symbol as its value goes into what remains of n, and
    nothing remains after the last entry. *)
Theorem roman_quotients (n : Z) :
  0 < n < 4000 →
  roman (PInt n) = Ok (join (quotients coding n))
  ∧ remainder coding n = 0.
Proof.
  intros Hn. split; [|apply remainder_coding].
  unfold roman. cbn [num_le num_ge num_int rbind num_ne].
  rewrite (proj2 (Z.leb_gt n 0)) by lia.
  rewrite (proj2 (Z.leb_gt 4000 n)) by lia.
  cbn [orb]. rewrite Z.eqb_refl. cbn [negb].
  rewrite (for_coding_int 4000 coding coding_positive) by lia.
  reflexivity.
Qed.

Lemma roman_shape_check_all :
  forallb roman_shape_check (map Z.of_nat (seq 1 3999)) = true.
Proof. vm_compute. reflexivity. Qed.

(** X2: for every integer n from 1 to 3999, the numeral that [roman]
    returns has between 1 and 15 characters and never the same character
    more than three times in a row. *)
Theorem roman_shape (n : Z) :
  1 ≤ n ≤ 3999 →
  ∃ s, roman (PInt n) = Ok s
       ∧ (1 ≤ String.length s ≤ 15)%nat
       ∧ (longest_run None 0 0 s ≤ 3)%nat.
Proof.
  intros Hn. pose proof (checked_on_range _ roman_shape_check_all n Hn) as Hc.
  unfold roman_shape_check in Hc. destruct (roman (PInt n)) as [s|]; [|done].
  exists s. split; [done|].
  apply andb_prop in Hc as [Hc Hrun]. apply andb_prop in Hc as [Hlo Hhi].
  apply Nat.leb_le in Hlo, Hhi, Hrun. lia.
Qed.

End RomanMore.

(** * Further properties of [fmt_sidx] *)

(** * Integers that floats hold exactly *)

Lemma digits2_pos_shift (p d : positive) :
  digits2_pos (Pos.iter xO p d) = (digits2_pos p + d)%positive.
Proof.
  induction d as [|d IH] using Pos.peano_ind.
  - cbn. lia.
  - rewrite Pos.iter_succ. cbn [digits2_pos]. rewrite IH. lia.
Qed.

Lemma Zpos_shift (p d : positive) :
  Z.pos (Pos.iter xO p d) = Z.pos p * 2 ^ Z.pos d.
Proof.
  induction d as [|d IH] using Pos.peano_ind.
  - cbn. lia.
  - rewrite Pos.iter_succ, Pos2Z.inj_xO, IH, Pos2Z.inj_succ.
    rewrite Z.pow_succ_r by lia. ring.
Qed.

(** A mantissa of 53 bits with an exponent in range is left as it is. *)
Lemma binary_round_aux_canonical (s : bool) (m : positive) (e : Z) :
  Z.pos (digits2_pos m) = 53 → -1074 ≤ e ≤ 971 →
  binary_round_aux Float.prec Float.emax s (Z.pos m) e loc_Exact
  = S754_finite s m e.
Proof.
  intros Hd He.
  assert (Hshift : fexp Float.prec Float.emax (Zdigits2 (Z.pos m) + e) - e = 0).
  { unfold fexp, emin, Zdigits2, Float.prec, Float.emax. rewrite Hd. lia. }
  unfold binary_round_aux, shr_fexp. rewrite Hshift.
  cbn [shr_record_of_loc shr shr_m loc_of_shr_record round_nearest_even].
  rewrite Hshift. cbn [shr shr_m].
  unfold Float.prec, Float.emax.
  rewrite (proj2 (Z.leb_le e (1024 - 53))) by lia. reflexivity.
Qed.

(** [float(n)] of a positive integer below 2^53. *)
Lemma binary_round_small (s : bool) (p : positive) :
  Z.pos p < 2 ^ 53 →
  ∃ m e, binary_round Float.prec Float.emax s p 0 = S754_finite s m e
         ∧ -52 ≤ e ≤ 0 ∧ Z.pos m = Z.pos p * 2 ^ (- e)
         ∧ Z.pos (digits2_pos m) = 53.
Proof.
  intros Hp. pose proof (digits2_pos_bounds p) as Hb.
  set (D := Z.pos (digits2_pos p)) in *.
  assert (HD : 1 ≤ D ≤ 53).
  { split; [unfold D; lia|].
    destruct (Z.le_gt_cases D 53) as [|Hgt]; [done|exfalso].
    assert (2 ^ 53 ≤ 2 ^ (D - 1)) by (apply Z.pow_le_mono_r; lia). lia. }
  unfold binary_round, shl_align.
  assert (Hf : fexp Float.prec Float.emax (Z.pos (digits2_pos p) + 0) - 0 = D - 53).
  { unfold fexp, emin, Float.prec, Float.emax. fold D. lia. }
  rewrite Hf. rewrite Z.sub_0_r in Hf.
  destruct (D - 53) as [|q|q] eqn:Hq; [|lia|].
  - exists p, 0. rewrite binary_round_aux_canonical by (fold D; lia).
    split; [done|]. split; [lia|]. split; [cbn; lia|fold D; lia].
  - exists (Pos.iter xO p q), (Z.neg q). rewrite Hf.
    assert (Hdig : Z.pos (digits2_pos (Pos.iter xO p q)) = 53).
    { rewrite digits2_pos_shift, Pos2Z.inj_add. fold D. lia. }
    rewrite binary_round_aux_canonical by (done || lia).
    split; [done|]. split; [lia|]. split; [|done].
    rewrite Zpos_shift. f_equal.
Qed.

(** [float(n)] is exact for an integer of magnitude below 2^53: it is a
    valid float, [int()] gives n back, and it compares equal to n. *)
Lemma of_int_exact (n : Z) :
  - 2 ^ 53 < n < 2 ^ 53 →
  ∃ f, Float.of_int n = Ok f ∧ Float.to_int f = Ok n
       ∧ Float.compare_int f n = Some Eq ∧ float_valid f.
Proof.
  intros Hn. unfold Float.of_int, Float.make, binary_normalize.
  destruct n as [|p|p].
  - exists (S754_zero false). done.
  - destruct (binary_round_small false p) as (m & e & -> & He & Hm & Hd); [lia|].
    exists (S754_finite false m e).
    assert (HP : 0 < 2 ^ (- e)) by (apply Z.pow_pos_nonneg; lia).
    split; [done|]. split; [|split].
    + unfold Float.to_int. destruct (Z.leb_spec 0 e).
      * assert (e = 0) as -> by lia. cbn in Hm |- *. f_equal. lia.
      * cbn [cond_Zopp]. rewrite Hm. f_equal. apply Z.div_mul. lia.
    + unfold Float.compare_int. cbv zeta. destruct (Z.leb_spec 0 e).
      * assert (e = 0) as -> by lia. cbn in Hm |- *. f_equal.
        apply Z.compare_eq_iff. lia.
      * cbn [cond_Zopp]. f_equal. apply Z.compare_eq_iff. lia.
    + unfold float_valid, valid_binary, bounded, canonical_mantissa, fexp,
        emin, Float.prec, Float.emax. rewrite Hd.
      apply andb_true_intro. split; [apply Z.eqb_eq|apply Z.leb_le]; lia.
  - destruct (binary_round_small true p) as (m & e & -> & He & Hm & Hd); [lia|].
    exists (S754_finite true m e).
    assert (HP : 0 < 2 ^ (- e)) by (apply Z.pow_pos_nonneg; lia).
    split; [done|]. split; [|split].
    + unfold Float.to_int. destruct (Z.leb_spec 0 e).
      * assert (e = 0) as -> by lia. cbn in Hm |- *. f_equal. lia.
      * cbn [cond_Zopp]. rewrite Hm. f_equal. rewrite Z.div_mul by lia. lia.
    + unfold Float.compare_int. cbv zeta. destruct (Z.leb_spec 0 e).
      * assert (e = 0) as -> by lia. cbn in Hm |- *. f_equal.
        apply Z.compare_eq_iff. lia.
      * cbn [cond_Zopp]. f_equal. apply Z.compare_eq_iff. lia.
    + unfold float_valid, valid_binary, bounded, canonical_mantissa, fexp,
        emin, Float.prec, Float.emax. rewrite Hd.
      apply andb_true_intro. split; [apply Z.eqb_eq|apply Z.leb_le]; lia.
Qed.

Section FmtSidxInt.
Context `{Builtins}.

(** X3: for every integer n of magnitude below 2^53, the conversion to
    [float] and back in [fmt_sidx] is exact: the result is the decimal text
    of n, or [roman(n)] when [use_roman] is set, whatever the format. *)
Theorem fmt_sidx_int (n : Z) (fmt : string) :
  - 2 ^ 53 < n < 2 ^ 53 →
  fmt_sidx (VNum (PInt n)) fmt false = Ok (pretty n)
  ∧ fmt_sidx (VNum (PInt n)) fmt true = roman (PInt n).
Proof.
  intros Hn. destruct (of_int_exact n Hn) as (f & Hf & Hi & Hc & _).
  unfold fmt_sidx. cbn [none_or_empty py_float]. rewrite Hf, Hi.
  cbn [rbind]. unfold Float.eq_int. rewrite Hc. done.
Qed.

End FmtSidxInt.

Section FmtSidxFloat.
Context `{Builtins}.

Lemma roman_int_returns (z : Z) : ∃ s, roman (PInt z) = Ok s.
Proof.
  unfold roman. destruct (num_le (PInt z) 0 || num_ge (PInt z) 4000);
    [by eexists|].
  cbn [num_int rbind]. destruct (num_ne z (PInt z)); by eexists.
Qed.

(** X4: with the default format, [fmt_sidx] of a float returns a string
    exactly when the float is finite: on a NaN it raises [ValueError] and
    on an infinity [OverflowError], both from [int(i)]. *)
Theorem fmt_sidx_float_finite (x : Float.t) (use_roman : bool) :
  match x with
  | S754_nan =>
      fmt_sidx (VNum (PFloat x)) default_fmt use_roman = Raise ValueError
  | S754_infinity _ =>
      fmt_sidx (VNum (PFloat x)) default_fmt use_roman = Raise OverflowError
  | _ => ∃ s, fmt_sidx (VNum (PFloat x)) default_fmt use_roman = Ok s
  end.
Proof.
  destruct x as [s|s| |s m e]; try reflexivity.
  - unfold fmt_sidx. cbn [none_or_empty py_float Float.to_int rbind].
    destruct (Float.eq_int _ _); [|by eexists].
    destruct use_roman; [apply roman_int_returns|by eexists].
  - unfold fmt_sidx. cbn [none_or_empty py_float Float.to_int rbind].
    destruct (Float.eq_int _ _); [|by eexists].
    destruct use_roman; [apply roman_int_returns|by eexists].
Qed.

End FmtSidxFloat.

(** * Further properties of [CoverManager] *)

Section CoverMore.
Context `{Builtins} `{Collaborators}.
Implicit Types (w : World) (inspect : string → option Z * option Z).

(** The page of a template path: the text of the template used, around
    the unquoted href. *)
Lemma insert_cover_page inspect w (r : Reference) (b a : string) :
  guide (oeb w) !! "titlepage" = None →
  guide (oeb w) !! "cover" = Some r →
  (let c' := set_svg_template
               (fill_dimensions (svg_template (self w))
                  (measured inspect (href r) (log w)).1.1
                  (measured inspect (href r) (log w)).1.2) (self w) in
   page_parts (if no_svg_cover c' then non_svg_template c'
               else svg_template c') = Some (b, a)) →
  let tp := b +:+ unquote (href r) +:+ a in
  log (insert_cover_with inspect w).1 = (measured inspect (href r) (log w)).2
  ∧ match fromstring_error tp with
    | None =>
        (insert_cover_with inspect w).2 = Ok tt
        ∧ ∃ item, data item = tp
            ∧ titlepage_inserted (oeb w)
                (oeb (insert_cover_with inspect w).1) item
    | Some e =>
        (insert_cover_with inspect w).2 = Raise e
        ∧ oeb (insert_cover_with inspect w).1 = oeb w
    end.
Proof.
  intros Ht Hc Hparts tp.
  rewrite (insert_cover_template_path inspect w r Ht Hc).
  destruct (measured inspect (href r) (log w)) as [[wd ht] l'].
  cbn [fst snd] in Hparts. cbn zeta in Hparts |- *.
  rewrite (format_str_parts _ b a (unquote (href r)) Hparts). fold tp.
  destruct (fromstring_error tp) as [e|]; cbn [fst snd log oeb].
  - done.
  - split; [done|]. split; [done|].
    exists (new_item (manifest (oeb w)) tp). split; [done|].
    by apply titlepage_inserted_intro.
Qed.

(** The ways a run of [insert_cover] can end: nothing changed; an existing
    titlepage linked; the template path with an exception, the book
    unchanged; the template path with a new item. *)
Lemma insert_cover_cases inspect w :
  (∃ out, insert_cover_with inspect w = (w, out))
  ∨ (∃ item,
       insert_cover_with inspect w
       = ({| self := self w;
             oeb := {| metadata := metadata (oeb w);
                       guide := linked_guide item (guide (oeb w));
                       manifest := manifest (oeb w);
                       spine := (item, true) :: spine (oeb w) |};
             log := log w |}, Ok tt))
  ∨ (∃ c' l' e,
       insert_cover_with inspect w
       = ({| self := c'; oeb := oeb w; log := l' |}, Raise e)
       ∧ (l' = log w ∨ l' = log w ++ ["Failed to read cover dimensions"]))
  ∨ (∃ c' l' item,
       insert_cover_with inspect w
       = ({| self := c';
             oeb := {| metadata := metadata (oeb w);
                       guide := linked_guide item (guide (oeb w));
                       manifest :=
                         {| items := items (manifest (oeb w)) ++ [item];
                            hrefs := <[item_href item := item]>
                                       (hrefs (manifest (oeb w))) |};
                       spine := (item, true) :: spine (oeb w) |};
             log := l' |}, Ok tt)
       ∧ (l' = log w ∨ l' = log w ++ ["Failed to read cover dimensions"])).
Proof.
  destruct (guide (oeb w) !! "titlepage") as [r0|] eqn:Ht.
  - destruct (hrefs (manifest (oeb w)) !! (urldefrag (href r0)).1)
      as [item|] eqn:Hi.
    + right; left. exists item. by apply (insert_cover_existing inspect w r0).
    + left. eexists. by apply (insert_cover_dangling inspect w r0).
  - destruct (guide (oeb w) !! "cover") as [r|] eqn:Hc.
    + rewrite (insert_cover_template_path inspect w r Ht Hc).
      assert (Hl : (measured inspect (href r) (log w)).2 = log w
                   ∨ (measured inspect (href r) (log w)).2
                     = log w ++ ["Failed to read cover dimensions"]).
      { unfold measured. destruct (inspect (href r)) as [[?|] [?|]];
          cbn [snd]; auto. }
      destruct (measured inspect (href r) (log w)) as [[wd ht] l'].
      cbn [snd] in Hl. cbn zeta.
      destruct (format_str _ _) as [tp|e].
      * destruct (fromstring_error tp) as [e|].
        -- right; right; left. by eexists _, _, _.
        -- right; right; right. by eexists _, _, _.
      * right; right; left. by eexists _, _, _.
    + left. eexists. by apply insert_cover_without_references.
Qed.

(** X5: whatever the book and however the run ends, [insert_cover] keeps
    the metadata, every manifest item and every spine entry the book had,
    in their order, and every guide reference other than "cover" and
    "titlepage"; it adds at most one item, at the end of the manifest, and
    at most one entry, at the front of the spine, and logs at most the one
    warning. *)
Theorem insert_cover_frame inspect w :
  metadata (oeb (insert_cover_with inspect w).1) = metadata (oeb w)
  ∧ (∃ new, items (manifest (oeb (insert_cover_with inspect w).1))
            = items (manifest (oeb w)) ++ new ∧ (length new ≤ 1)%nat)
  ∧ (∃ new, spine (oeb (insert_cover_with inspect w).1)
            = new ++ spine (oeb w) ∧ (length new ≤ 1)%nat)
  ∧ (∀ k, k ≠ "cover" → k ≠ "titlepage" →
          guide (oeb (insert_cover_with inspect w).1) !! k
          = guide (oeb w) !! k)
  ∧ (log (insert_cover_with inspect w).1 = log w
     ∨ log (insert_cover_with inspect w).1
       = log w ++ ["Failed to read cover dimensions"]).
Proof.
  destruct (insert_cover_cases inspect w)
    as [[out ->]|[[item ->]|[(c' & l' & e & -> & Hl)|(c' & l' & item & -> & Hl)]]];
    cbn [fst oeb metadata manifest items spine guide log].
  - split; [done|]. split; [exists []; split; [by rewrite app_nil_r|cbn; lia]|].
    split; [exists []; split; [done|cbn; lia]|]. split; [done|by left].
  - split; [done|]. split; [exists []; split; [by rewrite app_nil_r|cbn; lia]|].
    split; [exists [(item, true)]; split; [done|cbn; lia]|].
    split; [intros; by apply linked_guide_other|by left].
  - split; [done|]. split; [exists []; split; [by rewrite app_nil_r|cbn; lia]|].
    split; [exists []; split; [done|cbn; lia]|]. split; [done|exact Hl].
  - split; [done|]. split; [exists [item]; split; [done|cbn; lia]|].
    split; [exists [(item, true)]; split; [done|cbn; lia]|].
    split; [intros; by apply linked_guide_other|exact Hl].
Qed.

(** X6: when [insert_cover] raises, the book is as it was: every
    exception comes before the first change to the manifest, the spine or
    the guide. *)
Theorem insert_cover_raise_keeps_book inspect w (e : exn) :
  (insert_cover_with inspect w).2 = Raise e →
  oeb (insert_cover_with inspect w).1 = oeb w.
Proof.
  destruct (insert_cover_cases inspect w)
    as [[out ->]|[[item ->]|[(c' & l' & e' & -> & _)|(c' & l' & item & -> & _)]]];
    cbn [fst snd oeb]; done.
Qed.

(** X7: a titlepage reference whose href, without its fragment, is not
    among the hrefs of the manifest makes [insert_cover] raise [KeyError];
    the book, the instance and the log are unchanged. *)
Theorem insert_cover_unresolved_titlepage inspect w (r : Reference) :
  guide (oeb w) !! "titlepage" = Some r →
  hrefs (manifest (oeb w)) !! (urldefrag (href r)).1 = None →
  insert_cover_with inspect w = (w, Raise KeyError).
Proof.
  intros Ht Hi. unfold insert_cover_with, existing_titlepage. run_method.
  rewrite Ht. cbn. by rewrite Ht, Hi.
Qed.

(** X8: on the path of an existing titlepage, a cover reference that the
    guide already has keeps its title and relation and is pointed to the
    titlepage item; a guide without one gets one, titled "Title Page". *)
Theorem insert_cover_cover_reference inspect w (r : Reference) (item : Item) :
  guide (oeb w) !! "titlepage" = Some r →
  hrefs (manifest (oeb w)) !! (urldefrag (href r)).1 = Some item →
  guide (oeb (insert_cover_with inspect w).1) !! "cover"
  = Some match guide (oeb w) !! "cover" with
         | Some c => set_href (item_href item) c
         | None => {| href := item_href item; ref_title := "Title Page";
                      ref_relation := "a" |}
         end.
Proof.
  intros Ht Hi. rewrite (insert_cover_existing inspect w r item Ht Hi).
  cbn [fst oeb guide]. unfold linked_guide, guide_add.
  destruct (guide (oeb w) !! "cover") as [c|] eqn:Hc.
  - rewrite (bool_decide_eq_false_2 (Some c = None)) by done.
    case_bool_decide.
    + by rewrite lookup_alter_eq, Hc.
    + rewrite lookup_alter_ne by done. by rewrite lookup_alter_eq, Hc.
  - rewrite (bool_decide_eq_true_2 (None = None)) by done.
    case_bool_decide.
    + by rewrite lookup_alter_eq, lookup_insert_eq.
    + rewrite lookup_alter_ne by done.
      by rewrite lookup_alter_eq, lookup_insert_eq.
Qed.

(** X9: with neither reference in the guide and default covers allowed,
    an exception of [fmt_sidx] on the first series index goes through
    [default_cover] and [insert_cover] to the caller; nothing is changed. *)
Theorem insert_cover_series_index_raises inspect w (t s : string)
    (ts ss : list string) (i : pyval) (rest : list pyval) (e : exn) :
  guide (oeb w) !! "cover" = None →
  guide (oeb w) !! "titlepage" = None →
  no_default_cover (self w) = false →
  title (metadata (oeb w)) = t :: ts →
  series (metadata (oeb w)) = s :: ss →
  series_index (metadata (oeb w)) = i :: rest →
  fmt_sidx i default_fmt true = Raise e →
  default_cover w = (w, Raise e)
  ∧ insert_cover_with inspect w = (w, Raise e).
Proof.
  intros Hc Ht Hn Htitle Hs Hi He.
  assert (Hd : default_cover w = (w, Raise e)).
  { unfold default_cover. run_method. rewrite Hn, Htitle. cbn.
    by rewrite Hs, Hi, He. }
  split; [exact Hd|].
  rewrite insert_cover_without_references by done. by rewrite Hd.
Qed.

End CoverMore.

Section InitFacts.
Context `{Builtins} `{Collaborators}.
Implicit Types (w : World) (inspect : string → option Z * option Z).

Lemma replace_style (new : string) :
  replace NONSVG_TEMPLATE "__style__" new
  = before_marker "__style__" NONSVG_TEMPLATE +:+ new
      +:+ after_marker "__style__" NONSVG_TEMPLATE.
Proof. vm_compute. reflexivity. Qed.

Lemma nonsvg_around_style :
  (∃ b0, before_marker "__style__" NONSVG_TEMPLATE
         = b0 +:+ "<img src=" +:+ dq +:+ "%s" +:+ dq
              +:+ " alt=" +:+ dq +:+ "cover" +:+ dq +:+ " ")
  ∧ (∃ a0, after_marker "__style__" NONSVG_TEMPLATE = " />" +:+ a0).
Proof.
  split.
  - eexists (before_marker "<img" NONSVG_TEMPLATE). vm_compute. reflexivity.
  - eexists (after_marker " />" (after_marker "__style__" NONSVG_TEMPLATE)).
    vm_compute. reflexivity.
Qed.

(** X10: [__init__] with [fixed_size = (width, height)] writes the first
    value as the height and the second as the width: the plain template
    has the image element with the style "height: <width>; width:
    <height>". *)
Theorem init_fixed_size_style (nd ns pr : bool) (width height : pyval) :
  occurs
    ("<img src=" +:+ dq +:+ "%s" +:+ dq +:+ " alt=" +:+ dq +:+ "cover" +:+ dq
       +:+ " " +:+ fixed_style width height +:+ " />")
    (non_svg_template (init nd ns pr (Some (width, height)))).
Proof.
  unfold occurs. cbn [init non_svg_template].
  change ("style=" +:+ dq +:+ "height: " +:+ py_str width
            +:+ "; width: " +:+ py_str height +:+ dq)
    with (fixed_style width height).
  rewrite replace_style.
  destruct nonsvg_around_style as [[b0 ->] [a0 ->]].
  exists b0, a0.
  generalize (fixed_style width height). intros style.
  rewrite !append_assoc. reflexivity.
Qed.

End InitFacts.

Section PageMore.
Context `{Builtins} `{Collaborators}.
Implicit Types (w : World) (inspect : string → option Z * option Z).

(** What a call finds in an instance that was constructed by [init] and
    then used: the flags and the plain template of [init], and an SVG
    template that, filled for 600 by 800, is the fresh one filled. *)
Lemma reachable_configuration (nd ns pr : bool) fs (c : CoverManager) :
  reachable (init nd ns pr fs) c →
  no_svg_cover c = ns
  ∧ non_svg_template c = non_svg_template (init nd ns pr fs)
  ∧ fill_dimensions (svg_template c) 600 800
    = fill_dimensions (fresh_svg pr) 600 800.
Proof.
  intros Hreach. apply reachable_forms_of in Hreach; [|apply init_twice].
  destruct Hreach as [Hc|Hc]; rewrite Hc.
  - split; [exact (no_svg_cover_init nd ns pr fs)|]. split; [reflexivity|].
    exact (f_equal (λ t, fill_dimensions t 600 800)
             (svg_template_init nd ns pr fs)).
  - destruct (flags_set_svg_template
      (fill_dimensions (svg_template (init nd ns pr fs)) 600 800)
      (init nd ns pr fs)) as (_ & Hns & _ & Hplain).
    rewrite Hns, Hplain.
    split; [exact (no_svg_cover_init nd ns pr fs)|]. split; [reflexivity|].
    rewrite svg_template_set, (init_twice nd ns pr fs).
    exact (f_equal (λ t, fill_dimensions t 600 800)
             (svg_template_init nd ns pr fs)).
Qed.

Lemma world_eta w : {| self := self w; oeb := oeb w; log := log w |} = w.
Proof. by destruct w. Qed.

Lemma reachable_after (fresh : CoverManager) w :
  reachable fresh (self w) → reachable fresh (self (insert_cover w).1).
Proof.
  intros Hreach. pose proof (reach_call fresh _ (oeb w) (log w) Hreach) as Hr.
  unfold call in Hr. by rewrite world_eta in Hr.
Qed.

Lemma plain_template_init (nd pr : bool) :
  plain_page_template (non_svg_template (init nd true pr None)) = true.
Proof. vm_compute. reflexivity. Qed.

Lemma svg_attributes_filled (pr : bool) :
  svg_attributes_template (fill_dimensions (fresh_svg pr) 600 800) pr 600 800
  = true.
Proof. destruct pr; vm_compute; reflexivity. Qed.

(** X11: an instance constructed with [no_svg_cover] set and no fixed
    size builds the plain page: when the run returns, the new item's
    content is the plain template around the unquoted href of the cover,
    which stands in the [src] attribute of an [img] element with the style
    "height: 100%"; nothing of the template before or after it has an
    [svg] element. *)
Theorem insert_cover_plain_page (nd pr : bool) w (r : Reference) :
  reachable (init nd true pr None) (self w) →
  guide (oeb w) !! "titlepage" = None →
  guide (oeb w) !! "cover" = Some r →
  (insert_cover w).2 = Ok tt →
  ∃ item b a,
    titlepage_inserted (oeb w) (oeb (insert_cover w).1) item
    ∧ data item
      = b +:+ "<img src=" +:+ dq +:+ unquote (href r) +:+ dq
          +:+ " alt=" +:+ dq +:+ "cover" +:+ dq
          +:+ " style=" +:+ dq +:+ "height: 100%" +:+ dq +:+ " />" +:+ a
    ∧ ¬ occurs "<svg" (b +:+ "<img src=" +:+ dq)
    ∧ ¬ occurs "<svg"
          (dq +:+ " alt=" +:+ dq +:+ "cover" +:+ dq
             +:+ " style=" +:+ dq +:+ "height: 100%" +:+ dq +:+ " />" +:+ a).
Proof.
  intros Hreach Ht Hc Hok.
  destruct (reachable_configuration _ _ _ _ _ Hreach) as (Hns & Hplain & _).
  pose proof (plain_template_init nd pr) as Hp. rewrite <- Hplain in Hp.
  unfold plain_page_template in Hp.
  destruct (page_parts (non_svg_template (self w))) as [[b a]|] eqn:Hparts;
    [|done].
  apply andb_prop in Hp as [Hp Ha]. apply andb_prop in Hp as [Hp Hb].
  apply andb_prop in Hp as [Hpre Hsuf].
  apply bool_decide_eq_true in Hpre as [b0 Hb0], Hsuf as [a0 Ha0].
  apply strip_suffix_spec in Hb0. apply strip_prefix_spec in Ha0.
  unfold insert_cover in *.
  destruct (insert_cover_page inspect_cover w r b a Ht Hc) as [_ Hres].
  { cbn zeta. destruct (self w) as [? ns ? ? plain]. cbn in Hns, Hparts |- *.
    by subst ns. }
  cbn zeta in Hres.
  destruct (fromstring_error _) as [e|]; [destruct Hres; congruence|].
  destruct Hres as (_ & item & Hdata & Hins).
  rewrite !append_assoc in Ha0.
  exists item, b0, a0. split; [exact Hins|].
  rewrite <- Hb0, <- Ha0. split.
  - rewrite Hdata. rewrite Hb0 at 1. by rewrite !append_assoc.
  - split; intros Hocc; apply occurs_contains in Hocc;
      [by rewrite Hocc in Hb|by rewrite Hocc in Ha].
Qed.

(** X12: an instance constructed with [no_svg_cover] false builds, on the
    template path, a page that has the [svg] element at 100% by 100% (the
    doubled percent signs of the template are single in the page), the
    aspect-ratio keyword chosen at construction ("xMidYMid meet" when
    [preserve_aspect_ratio] is set, "none" otherwise) and the image at 600
    by 800. *)
Theorem insert_cover_svg_attributes (nd pr : bool) fs w (r : Reference) :
  reachable (init nd false pr fs) (self w) →
  guide (oeb w) !! "titlepage" = None →
  guide (oeb w) !! "cover" = Some r →
  (insert_cover w).2 = Ok tt →
  ∃ item,
    titlepage_inserted (oeb w) (oeb (insert_cover w).1) item
    ∧ Forall (λ attr, occurs attr (data item)) (svg_page_attributes pr 600 800).
Proof.
  intros Hreach Ht Hc Hok.
  destruct (reachable_configuration _ _ _ _ _ Hreach) as (Hns & _ & Hsvg).
  pose proof (svg_attributes_filled pr) as Hp. rewrite <- Hsvg in Hp.
  unfold svg_attributes_template in Hp.
  destruct (page_parts (fill_dimensions (svg_template (self w)) 600 800))
    as [[b a]|] eqn:Hparts; [|done].
  unfold insert_cover in *.
  destruct (insert_cover_page inspect_cover w r b a Ht Hc) as [_ Hres].
  { cbn zeta. rewrite measured_inspect_cover. cbn [fst snd].
    destruct (self w) as [? ns ? svg ?]. cbn in Hns, Hparts |- *.
    by subst ns. }
  cbn zeta in Hres.
  destruct (fromstring_error _) as [e|]; [destruct Hres; congruence|].
  destruct Hres as (_ & item & Hdata & Hins).
  exists item. split; [exact Hins|].
  rewrite Hdata. apply Forall_forall. intros attr Hin.
  rewrite forallb_forall in Hp. apply list_elem_of_In in Hin.
  by apply occurs_append_l, contains_occurs, Hp.
Qed.

(** X13: [insert_cover] does not add a titlepage reference to the guide,
    and it points the cover reference to the page it made; so a second run
    on the same book takes the template path again and makes a second
    page, whose image is the first page: two items are added and two
    entries put at the front of the spine. *)
Theorem insert_cover_twice (nd pr : bool) fs w (r : Reference) :
  reachable (init nd false pr fs) (self w) →
  guide (oeb w) !! "titlepage" = None →
  guide (oeb w) !! "cover" = Some r →
  (insert_cover w).2 = Ok tt →
  (insert_cover (insert_cover w).1).2 = Ok tt →
  ∃ item1 item2,
    items (manifest (oeb (insert_cover (insert_cover w).1).1))
    = items (manifest (oeb w)) ++ [item1; item2]
    ∧ spine (oeb (insert_cover (insert_cover w).1).1)
      = (item2, true) :: (item1, true) :: spine (oeb w)
    ∧ occurs (image_ref (unquote (href r))) (data item1)
    ∧ occurs (image_ref (unquote (item_href item1))) (data item2)
    ∧ guide (oeb (insert_cover (insert_cover w).1).1) !! "titlepage" = None.
Proof.
  intros Hreach Ht Hc Hok1 Hok2.
  assert (Hrun : ∀ w0 r0,
    reachable (init nd false pr fs) (self w0) →
    guide (oeb w0) !! "titlepage" = None →
    guide (oeb w0) !! "cover" = Some r0 →
    (insert_cover w0).2 = Ok tt →
    ∃ item, occurs (image_ref (unquote (href r0))) (data item)
            ∧ titlepage_inserted (oeb w0) (oeb (insert_cover w0).1) item).
  { intros w0 r0 Hr0 Ht0 Hc0 Hok0.
    destruct (reachable_configuration _ _ _ _ _ Hr0) as (Hns & _ & Hsvg).
    unfold insert_cover in *.
    destruct (insert_cover_svg_page inspect_cover w0 r0 600 800)
      as (tp & _ & Href & _ & Hres); try done.
    - rewrite Hsvg. apply fresh_svg_filled_600_800.
    - destruct (fromstring_error tp) as [e|]; [destruct Hres; congruence|].
      destruct Hres as (_ & item & <- & Hins). by exists item. }
  destruct (Hrun w r Hreach Ht Hc Hok1) as (item1 & Href1 & Hins1).
  destruct Hins1 as (Hi1 & _ & _ & Hs1 & (r1 & Hc1 & Hh1) & Ht1 & _).
  destruct (Hrun (insert_cover w).1 r1 (reachable_after _ w Hreach) Ht1 Hc1 Hok2)
    as (item2 & Href2 & Hins2).
  destruct Hins2 as (Hi2 & _ & _ & Hs2 & _ & Ht2 & _).
  exists item1, item2. rewrite Hi2, Hi1, Hs2, Hs1, <- Hh1.
  rewrite <- app_assoc. done.
Qed.

End PageMore.

(** * The claim about the fallback dimensions *)

Section FallbackClaim.
Context `{Builtins} `{Collaborators}.
Implicit Types (w : World) (inspect : string → option Z * option Z).

(** The template path with the class's own inspection: the warning, the
    SVG template filled for 600 by 800, and a run that ends as formatting
    and parsing the page decide. *)
Lemma insert_cover_fallback_run w (r : Reference) (templ : string) :
  guide (oeb w) !! "titlepage" = None →
  guide (oeb w) !! "cover" = Some r →
  (if no_svg_cover (self w) then non_svg_template (self w)
   else fill_dimensions (svg_template (self w)) 600 800) = templ →
  log (insert_cover w).1 = log w ++ ["Failed to read cover dimensions"]
  ∧ svg_template (self (insert_cover w).1)
    = fill_dimensions (svg_template (self w)) 600 800
  ∧ match format_str templ (unquote (href r)) with
    | Ok tp =>
        match fromstring_error tp with
        | None =>
            (insert_cover w).2 = Ok tt
            ∧ ∃ item, data item = tp
                ∧ titlepage_inserted (oeb w) (oeb (insert_cover w).1) item
        | Some e =>
            (insert_cover w).2 = Raise e
            ∧ oeb (insert_cover w).1 = oeb w
        end
    | Raise e =>
        (insert_cover w).2 = Raise e
        ∧ oeb (insert_cover w).1 = oeb w
    end.
Proof.
  intros Ht Hc <-. unfold insert_cover.
  rewrite (insert_cover_template_path inspect_cover w r Ht Hc).
  rewrite measured_inspect_cover. cbn zeta.
  destruct (self w) as [nd ns pr svg plain].
  cbn [set_svg_template no_svg_cover svg_template non_svg_template].
  destruct (format_str _ _) as [tp|e]; [|done].
  destruct (fromstring_error tp) as [e|]; cbn [fst snd log oeb self svg_template].
  - done.
  - split; [done|]. split; [done|]. split; [done|].
    exists (new_item (manifest (oeb w)) tp). split; [done|].
    by apply titlepage_inserted_intro.
Qed.

Lemma plain_template_no_viewbox (nd pr : bool) :
  no_viewbox_template (non_svg_template (init nd true pr None)) = true.
Proof. vm_compute. reflexivity. Qed.

(** C7, as amended: on an instance that was constructed by [init] and
    used only through calls of this class, for every book on the template
    path, the inspection gives no dimensions and [insert_cover] goes on
    with 600 by 800: it logs the warning and fills the SVG template for 600
    by 800, whatever [no_svg_cover] is. With [no_svg_cover] false the page
    built has the viewBox "0 0 600 800"; with [no_svg_cover] set the page
    is built from the plain template, which for no fixed size has no
    viewBox before or after the image reference. Formatting the page can
    raise only for a fixed-size style in the plain template; the run then
    ends as the parser of the page decides. *)
Theorem insert_cover_fallback_dimensions (nd ns pr : bool) fs w (r : Reference) :
  reachable (init nd ns pr fs) (self w) →
  guide (oeb w) !! "titlepage" = None →
  guide (oeb w) !! "cover" = Some r →
  inspect_cover (href r) = (None, None)
  ∧ log (insert_cover w).1 = log w ++ ["Failed to read cover dimensions"]
  ∧ svg_template (self (insert_cover w).1)
    = fill_dimensions (fresh_svg pr) 600 800
  ∧ match format_str (if ns then non_svg_template (init nd ns pr fs)
                      else fill_dimensions (fresh_svg pr) 600 800)
            (unquote (href r)) with
    | Ok tp =>
        (ns = false →
         occurs (viewbox_attr 600 800) tp
         ∧ occurs (image_ref (unquote (href r))) tp)
        ∧ (ns = true → fs = None →
           ∃ b a, tp = b +:+ unquote (href r) +:+ a
                  ∧ ¬ occurs "viewBox" b ∧ ¬ occurs "viewBox" a)
        ∧ match fromstring_error tp with
          | None =>
              (insert_cover w).2 = Ok tt
              ∧ ∃ item, data item = tp
                  ∧ titlepage_inserted (oeb w) (oeb (insert_cover w).1) item
          | Some e =>
              (insert_cover w).2 = Raise e
              ∧ oeb (insert_cover w).1 = oeb w
          end
    | Raise e =>
        ns = true ∧ fs ≠ None
        ∧ (insert_cover w).2 = Raise e
        ∧ oeb (insert_cover w).1 = oeb w
    end.
Proof.
  intros Hreach Ht Hc. split; [done|].
  destruct (reachable_configuration _ _ _ _ _ Hreach) as (Hns & Hplain & Hfill).
  set (templ := if ns then non_svg_template (init nd ns pr fs)
                else fill_dimensions (fresh_svg pr) 600 800).
  assert (Htempl : (if no_svg_cover (self w) then non_svg_template (self w)
                    else fill_dimensions (svg_template (self w)) 600 800)
                   = templ).
  { unfold templ. rewrite Hns, Hplain, Hfill. reflexivity. }
  destruct (insert_cover_fallback_run w r templ Ht Hc Htempl)
    as (Hlog & Hsvg & Hrun).
  split; [exact Hlog|]. split; [exact (eq_trans Hsvg Hfill)|].
  assert (Hparts : (ns = false →
                    ∃ tp, format_str templ (unquote (href r)) = Ok tp
                          ∧ occurs (viewbox_attr 600 800) tp
                          ∧ occurs (image_ref (unquote (href r))) tp)
                   ∧ (ns = true → fs = None →
                      ∃ b a, format_str templ (unquote (href r))
                             = Ok (b +:+ unquote (href r) +:+ a)
                             ∧ ¬ occurs "viewBox" b ∧ ¬ occurs "viewBox" a)).
  { unfold templ. split.
    - intros ->. apply svg_page_template_spec.
      exact (fresh_svg_filled_600_800 pr).
    - intros -> ->. pose proof (plain_template_no_viewbox nd pr) as Hp.
      unfold no_viewbox_template in Hp.
      destruct (page_parts (non_svg_template (init nd true pr None)))
        as [[b a]|] eqn:Hpp; [|done].
      apply andb_prop in Hp as [Hb Ha].
      exists b, a. split; [exact (format_str_parts _ b a _ Hpp)|].
      split; intros Hocc; apply occurs_contains in Hocc;
        [by rewrite Hocc in Hb|by rewrite Hocc in Ha]. }
  clearbody templ. destruct Hparts as [Hsvgpage Hplainpage].
  destruct (format_str templ (unquote (href r))) as [tp|e].
  - split.
    { intros Hf. destruct (Hsvgpage Hf) as (tp' & [= ->] & Hv & Hr). done. }
    split; [|exact Hrun].
    intros Hn Hfs. destruct (Hplainpage Hn Hfs) as (b & a & [= ->] & Hb & Ha).
    by exists b, a.
  - destruct ns.
    + split; [done|]. split; [|exact Hrun].
      intros Hfs. by destruct (Hplainpage eq_refl Hfs) as (b & a & ? & _).
    + by destruct (Hsvgpage eq_refl) as (tp' & ? & _).
Qed.

End FallbackClaim.

(** * Checks at concrete inputs *)

Lemma not_occurs_all (needle : string) (l : list Item) :
  forallb (λ item, negb (contains needle (data item))) l = true →
  Forall (λ item, ¬ occurs needle (data item)) l.
Proof.
  intros Hall. apply Forall_forall. intros item Hin.
  rewrite forallb_forall in Hall.
  apply list_elem_of_In in Hin. specialize (Hall item Hin).
  intros Hocc. apply occurs_contains in Hocc. by rewrite Hocc in Hall.
Qed.

Import Demo.

(** C4 at 1994. *)
Lemma roman_greedy_roundtrip_witness :
  1 ≤ 1994 ≤ 3999
  ∧ greedy_numeral 1994 = "MCMXCIV"
  ∧ roman (PInt 1994) = Ok (greedy_numeral 1994)
  ∧ roman_to_int (greedy_numeral 1994) = Some 1994.
Proof.
  split; [lia|]. split; [vm_compute; reflexivity|].
  apply roman_greedy_roundtrip. lia.
Defined.

(** C8 at the float 2.5. *)
Lemma roman_decimal_fallback_witness :
  PFloat (Float.make 5 (-1)) ≠ PFloat S754_nan
  ∧ decimal_case (PFloat (Float.make 5 (-1)))
  ∧ roman (PFloat (Float.make 5 (-1))) = Ok "2.5".
Proof.
  assert (Hnan : PFloat (Float.make 5 (-1)) ≠ PFloat S754_nan).
  { intros Heq. vm_compute in Heq. discriminate Heq. }
  assert (Hcase : decimal_case (PFloat (Float.make 5 (-1)))).
  { right; right. intros [k Hk].
    change (Float.make 5 (-1))
      with (S754_finite false 5629499534213120 (-51)) in Hk.
    unfold num_value, Float.compare_int in Hk. cbv zeta in Hk.
    change (0 <=? -51) with false in Hk. cbv iota in Hk.
    assert (Hk' : (cond_Zopp false 5629499534213120 ?= k * 2 ^ (- -51)) = Eq)
      by congruence.
    apply Z.compare_eq in Hk'.
    change (2 ^ (- -51)) with 2251799813685248 in Hk'.
    change (cond_Zopp false 5629499534213120) with 5629499534213120 in Hk'.
    lia. }
  split; [exact Hnan|]. split; [exact Hcase|].
  destruct (roman_decimal_fallback (PFloat (Float.make 5 (-1))) Hnan)
    as [Hdec _].
  rewrite (Hdec Hcase). vm_compute. reflexivity.
Defined.

(** C8, the counterexample: NaN is no integer, and on it [roman] raises
    [ValueError] where the claim has it return [str(num)]. *)
Lemma roman_nan_raises :
  decimal_case (PFloat S754_nan)
  ∧ roman (PFloat S754_nan) = Raise ValueError
  ∧ roman (PFloat S754_nan) ≠ Ok (num_str (PFloat S754_nan)).
Proof.
  split; [apply decimal_case_nan|]. split; [reflexivity|].
  rewrite roman_nan. discriminate.
Qed.

(** C3 at the string abc. *)
Lemma fmt_sidx_unconvertible_raises_witness :
  "abc" ≠ "" ∧ float_of_str "abc" = None
  ∧ fmt_sidx (VStr "abc") default_fmt false = Raise ValueError.
Proof.
  split; [done|]. split; [reflexivity|].
  apply fmt_sidx_unconvertible_raises; [done|reflexivity].
Defined.

(** C6 at a book without references, with default covers suppressed. *)
Lemma insert_cover_suppressed_noop_witness :
  guide bare_book !! "cover" = None
  ∧ guide bare_book !! "titlepage" = None
  ∧ insert_cover (world (init true false false None) bare_book)
    = (world (init true false false None) bare_book, Ok tt).
Proof.
  split; [reflexivity|]. split; [reflexivity|].
  apply (insert_cover_suppressed_noop inspect_cover
           (world (init true false false None) bare_book));
    reflexivity.
Defined.

(** C10 at a titled book in a series, without references, with default
    covers allowed. *)
Lemma default_cover_never_yields_cover_witness :
  no_default_cover (init false false false None) = false
  ∧ default_cover (world (init false false false None) bare_book)
    = (world (init false false false None) bare_book, Ok None)
  ∧ insert_cover_with inspect_cover (world (init false false false None) bare_book)
    = (world (init false false false None) bare_book, Ok tt).
Proof.
  split; [reflexivity|].
  destruct (default_cover_never_yields_cover inspect_cover
              (world (init false false false None) bare_book))
    as (Hw & _ & Hret & _ & Hrun & _).
  assert (Hd : (default_cover (world (init false false false None) bare_book)).2
               = Ok None).
  { apply Hret. right. split; [discriminate|].
    exists "2.50". vm_compute. reflexivity. }
  destruct (Hrun eq_refl eq_refl) as (Hw' & Hok & _).
  split.
  - rewrite <- Hw at 2. rewrite <- Hd. apply surjective_pairing.
  - rewrite <- Hw' at 2. rewrite <- (Hok Hd). apply surjective_pairing.
Defined.

(** C10, the counterexample: with [no_default_cover] false and a book
    whose metadata has no title, [default_cover] raises [IndexError]
    instead of returning [None], and so does [insert_cover]. *)
Lemma default_cover_untitled_raises :
  no_default_cover (init false false false None) = false
  ∧ title (metadata untitled_book) = []
  ∧ default_cover (world (init false false false None) untitled_book)
    = (world (init false false false None) untitled_book, Raise IndexError)
  ∧ insert_cover (world (init false false false None) untitled_book)
    = (world (init false false false None) untitled_book, Raise IndexError).
Proof.
  split; [reflexivity|]. split; [reflexivity|].
  assert (Hd : default_cover (world (init false false false None) untitled_book)
    = (world (init false false false None) untitled_book, Raise IndexError))
    by (apply default_cover_untitled; reflexivity).
  split; [exact Hd|].
  unfold insert_cover. rewrite insert_cover_without_references by reflexivity.
  by rewrite Hd.
Qed.

(** C5 at a book whose titlepage reference has a fragment. *)
Lemma insert_cover_reuses_titlepage_witness :
  (urldefrag "tp.xhtml#top").1 = "tp.xhtml"
  ∧ (insert_cover (world (init false false false None) book_with_titlepage)).2
    = Ok tt
  ∧ manifest (oeb (insert_cover
                     (world (init false false false None)
                        book_with_titlepage)).1)
    = manifest book_with_titlepage
  ∧ spine (oeb (insert_cover
                  (world (init false false false None)
                     book_with_titlepage)).1) !! 0%nat
    = Some (page_item, true).
Proof.
  split; [reflexivity|].
  destruct (insert_cover_reuses_titlepage inspect_cover
              (world (init false false false None) book_with_titlepage)
              {| href := "tp.xhtml#top"; ref_title := "Title";
                 ref_relation := "" |} eq_refl)
    as (_ & _ & Hm & Hrun).
  split; [exact (proj1 Hrun)|]. split; [exact Hm|].
  exact (proj1 (proj2 (proj2 Hrun))).
Defined.

(** C5, the counterexample: the guide has a titlepage reference, but the
    manifest has no item at its href; [insert_cover] raises [KeyError],
    and the spine has no first entry after the run. *)
Lemma titlepage_without_item_raises :
  guide MoreDemo.book_unresolved !! "titlepage"
  = Some {| href := "missing.xhtml"; ref_title := "Title"; ref_relation := "" |}
  ∧ hrefs (manifest MoreDemo.book_unresolved) !! (urldefrag "missing.xhtml").1 = None
  ∧ (insert_cover (world (init false false false None) MoreDemo.book_unresolved)).2
    = Raise KeyError
  ∧ spine (oeb (insert_cover
                  (world (init false false false None) MoreDemo.book_unresolved)).1)
    !! 0%nat = None.
Proof.
  split; [reflexivity|]. split; [reflexivity|].
  unfold insert_cover.
  rewrite (insert_cover_dangling inspect_cover
             (world (init false false false None) MoreDemo.book_unresolved)
             {| href := "missing.xhtml"; ref_title := "Title";
                ref_relation := "" |} eq_refl eq_refl).
  split; reflexivity.
Qed.

(** C1 at a fresh instance and a book with a cover. *)
Lemma insert_cover_adds_svg_titlepage_witness :
  inspect_300_400 "cover.jpg" = (Some 300, Some 400)
  ∧ ∃ tp,
      occurs (viewbox_attr 300 400) tp
      ∧ occurs (image_ref "cover.jpg") tp
      ∧ (insert_cover_with inspect_300_400
           (world (init false false false None) book)).2 = Ok tt
      ∧ ∃ item, data item = tp
          ∧ titlepage_inserted book
              (oeb (insert_cover_with inspect_300_400
                      (world (init false false false None) book)).1) item.
Proof.
  split; [reflexivity|].
  destruct (insert_cover_adds_svg_titlepage inspect_300_400 false false None
              (world (init false false false None) book)
              {| href := "cover.jpg"; ref_title := "Cover"; ref_relation := "" |})
    as (tp & Hv & Hr & _ & Hres); [reflexivity..|].
  exists tp. split; [exact Hv|]. split; [exact Hr|]. exact Hres.
Defined.

(** C1, the counterexample: an instance constructed with [no_svg_cover]
    set builds the plain page, and no item of the manifest has the viewBox
    "0 0 300 400" after the run, although the guide has a cover and no
    titlepage and the inspection gives (300, 400). *)
Lemma plain_page_has_no_viewbox :
  guide book !! "cover"
  = Some {| href := "cover.jpg"; ref_title := "Cover"; ref_relation := "" |}
  ∧ guide book !! "titlepage" = None
  ∧ inspect_300_400 "cover.jpg" = (Some 300, Some 400)
  ∧ (insert_cover_with inspect_300_400
       (world (init false true false None) book)).2 = Ok tt
  ∧ Forall (λ item, ¬ occurs (viewbox_attr 300 400) (data item))
      (items (manifest (oeb (insert_cover_with inspect_300_400
                               (world (init false true false None) book)).1))).
Proof.
  split; [reflexivity|]. split; [reflexivity|]. split; [reflexivity|].
  split; [vm_compute; reflexivity|].
  apply not_occurs_all. vm_compute. reflexivity.
Qed.

(** C7 at fresh instances and a book with a cover: the SVG page, and the
    plain page. *)
Lemma insert_cover_fallback_dimensions_witness :
  (∃ tp,
     occurs (viewbox_attr 600 800) tp
     ∧ log (insert_cover (world (init false false false None) book)).1
       = ["Failed to read cover dimensions"]
     ∧ (insert_cover (world (init false false false None) book)).2 = Ok tt
     ∧ ∃ item, data item = tp
         ∧ titlepage_inserted book
             (oeb (insert_cover (world (init false false false None) book)).1)
             item)
  ∧ log (insert_cover (world (init false true false None) book)).1
    = ["Failed to read cover dimensions"].
Proof.
  split.
  - destruct (insert_cover_fallback_dimensions false false false None
                (world (init false false false None) book)
                {| href := "cover.jpg"; ref_title := "Cover";
                   ref_relation := "" |})
      as (_ & Hl & _ & Hrun); [apply reach_init|reflexivity..|].
    destruct (format_str _ _) as [tp|e]; [|by destruct Hrun].
    destruct Hrun as (Hv & _ & Hres).
    exists tp. split; [exact (proj1 (Hv eq_refl))|]. split; [exact Hl|].
    exact Hres.
  - destruct (insert_cover_fallback_dimensions false true false None
                (world (init false true false None) book)
                {| href := "cover.jpg"; ref_title := "Cover";
                   ref_relation := "" |})
      as (_ & Hl & _); [apply reach_init|reflexivity..|].
    exact Hl.
Defined.

(** C7, the counterexample: with [no_svg_cover] set the run falls back to
    600 by 800 and logs the warning, but the page it builds is the plain
    one: no item of the manifest has the viewBox "0 0 600 800". *)
Lemma fallback_plain_page_has_no_viewbox :
  guide book !! "titlepage" = None
  ∧ is_Some (guide book !! "cover")
  ∧ (insert_cover (world (init false true false None) book)).2 = Ok tt
  ∧ log (insert_cover (world (init false true false None) book)).1
    = ["Failed to read cover dimensions"]
  ∧ Forall (λ item, ¬ occurs (viewbox_attr 600 800) (data item))
      (items (manifest (oeb (insert_cover
                               (world (init false true false None) book)).1))).
Proof.
  split; [reflexivity|]. split; [by eexists|].
  split; [vm_compute; reflexivity|]. split; [vm_compute; reflexivity|].
  apply not_occurs_all. vm_compute. reflexivity.
Qed.

(** C2 at an instance used once, on a second book. *)
Lemma insert_cover_keeps_configuration_witness :
  (call (self (call (init false false false None) book []).1)
        book_with_titlepage []).2
  = (call (init false false false None) book_with_titlepage []).2
  ∧ oeb (call (self (call (init false false false None) book []).1)
              book_with_titlepage []).1
    = oeb (call (init false false false None) book_with_titlepage []).1.
Proof.
  destruct (insert_cover_keeps_configuration false false false None
              (self (call (init false false false None) book []).1)
              book_with_titlepage [])
    as (_ & _ & _ & _ & _ & Hres & Hbook & _);
    [apply reach_call, reach_init|].
  split; [exact Hres|exact Hbook].
Defined.

(** C2, the counterexample: a call on the template path assigns to
    [self.svg_template]; after it the instance's SVG template is no longer
    the one that [init] made. *)
Lemma insert_cover_changes_svg_template :
  svg_template (self (call (init false false false None) book []).1)
  ≠ svg_template (init false false false None).
Proof.
  intros Heq. apply (f_equal (contains "__viewbox__")) in Heq.
  vm_compute in Heq. discriminate Heq.
Qed.

(** ** Further checks at concrete inputs *)

Import MoreDemo.

(** X1 at 1994. *)
Lemma roman_quotients_witness :
  quotients coding 1994 = ["M"; "CM"; "XC"; "IV"]
  ∧ roman (PInt 1994) = Ok (join (quotients coding 1994)).
Proof.
  split; [vm_compute; reflexivity|].
  apply (roman_quotients 1994). lia.
Defined.

(** X2 at 3888, the longest numeral. *)
Lemma roman_shape_witness :
  roman (PInt 3888) = Ok "MMMDCCCLXXXVIII"
  ∧ ∃ s, roman (PInt 3888) = Ok s
         ∧ (1 ≤ String.length s ≤ 15)%nat
         ∧ (longest_run None 0 0 s ≤ 3)%nat.
Proof.
  split; [vm_compute; reflexivity|].
  apply (roman_shape 3888). lia.
Defined.

(** X3 at 2^53 - 1. *)
Lemma fmt_sidx_int_witness :
  fmt_sidx (VNum (PInt (2 ^ 53 - 1))) default_fmt false
  = Ok "9007199254740991"
  ∧ fmt_sidx (VNum (PInt (2 ^ 53 - 1))) default_fmt true
    = roman (PInt (2 ^ 53 - 1)).
Proof.
  destruct (fmt_sidx_int (2 ^ 53 - 1) default_fmt) as [Hd Hr]; [lia|].
  split; [|exact Hr]. rewrite Hd. vm_compute. reflexivity.
Defined.

(** X6 at a book without a title. *)
Lemma insert_cover_raise_keeps_book_witness :
  (insert_cover_with inspect_cover
     (world (init false false false None) untitled_book)).2 = Raise IndexError
  ∧ oeb (insert_cover_with inspect_cover
           (world (init false false false None) untitled_book)).1
    = untitled_book.
Proof.
  assert (Hr : (insert_cover_with inspect_cover
     (world (init false false false None) untitled_book)).2 = Raise IndexError)
    by (vm_compute; reflexivity).
  split; [exact Hr|].
  exact (insert_cover_raise_keeps_book inspect_cover _ _ Hr).
Defined.

(** X7 at a book whose titlepage is not in the manifest. *)
Lemma insert_cover_unresolved_titlepage_witness :
  insert_cover (world (init false false false None) book_unresolved)
  = (world (init false false false None) book_unresolved, Raise KeyError).
Proof.
  apply (insert_cover_unresolved_titlepage inspect_cover
           (world (init false false false None) book_unresolved)
           {| href := "missing.xhtml"; ref_title := "Title";
              ref_relation := "" |});
    reflexivity.
Defined.

(** X8 at a book with a titlepage and no cover reference. *)
Lemma insert_cover_cover_reference_witness :
  guide book_with_titlepage !! "cover" = None
  ∧ guide (oeb (insert_cover
                  (world (init false false false None) book_with_titlepage)).1)
    !! "cover"
    = Some {| href := "tp.xhtml"; ref_title := "Title Page";
              ref_relation := "a" |}.
Proof.
  split; [reflexivity|].
  exact (insert_cover_cover_reference inspect_cover
           (world (init false false false None) book_with_titlepage)
           {| href := "tp.xhtml#top"; ref_title := "Title";
              ref_relation := "" |}
           page_item eq_refl eq_refl).
Defined.

(** X9 at a series index that is no number. *)
Lemma insert_cover_series_index_raises_witness :
  fmt_sidx (VStr "abc") default_fmt true = Raise ValueError
  ∧ insert_cover (world (init false false false None) book_bad_index)
    = (world (init false false false None) book_bad_index, Raise ValueError).
Proof.
  assert (He : fmt_sidx (VStr "abc") default_fmt true = Raise ValueError)
    by reflexivity.
  split; [exact He|].
  exact (proj2 (insert_cover_series_index_raises inspect_cover
                  (world (init false false false None) book_bad_index)
                  "A Title" "A Series" [] [] (VStr "abc") [] ValueError
                  eq_refl eq_refl eq_refl eq_refl eq_refl eq_refl He)).
Defined.

(** X11 at a book with a cover. *)
Lemma insert_cover_plain_page_witness :
  ∃ item b a,
    items (manifest (oeb (insert_cover
                            (world (init false true false None) book)).1))
    = [cover_item; item]
    ∧ data item
      = b +:+ "<img src=" +:+ dq +:+ "cover.jpg" +:+ dq
          +:+ " alt=" +:+ dq +:+ "cover" +:+ dq
          +:+ " style=" +:+ dq +:+ "height: 100%" +:+ dq +:+ " />" +:+ a.
Proof.
  destruct (insert_cover_plain_page false false
              (world (init false true false None) book)
              {| href := "cover.jpg"; ref_title := "Cover"; ref_relation := "" |})
    as (item & b & a & Hins & Hdata & _);
    [apply reach_init|reflexivity|reflexivity|vm_compute; reflexivity|].
  exists item, b, a. split; [|exact Hdata].
  destruct Hins as (Hitems & _). exact Hitems.
Defined.

(** X12 at a book with a cover, aspect ratio preserved. *)
Lemma insert_cover_svg_attributes_witness :
  ∃ item,
    occurs ("preserveAspectRatio=" +:+ dq +:+ "xMidYMid meet" +:+ dq)
      (data item)
    ∧ items (manifest (oeb (insert_cover
                              (world (init false false true None) book)).1))
      = [cover_item; item].
Proof.
  destruct (insert_cover_svg_attributes false true None
              (world (init false false true None) book)
              {| href := "cover.jpg"; ref_title := "Cover"; ref_relation := "" |})
    as (item & Hins & Hattrs);
    [apply reach_init|reflexivity|reflexivity|vm_compute; reflexivity|].
  exists item. split.
  - apply Forall_cons in Hattrs as [_ Hattrs].
    apply Forall_cons in Hattrs as [Har _]. exact Har.
  - destruct Hins as (Hitems & _). exact Hitems.
Defined.

(** X13 at a book with a cover, run twice. *)
Lemma insert_cover_twice_witness :
  ∃ item1 item2,
    item_href item1 = "titlepage.xhtml"
    ∧ item_href item2 = "titlepage1.xhtml"
    ∧ occurs (image_ref "titlepage.xhtml") (data item2)
    ∧ spine (oeb (insert_cover
                    (insert_cover
                       (world (init false false false None) book)).1).1)
      = [(item2, true); (item1, true)].
Proof.
  destruct (insert_cover_twice false false None
              (world (init false false false None) book)
              {| href := "cover.jpg"; ref_title := "Cover"; ref_relation := "" |})
    as (item1 & item2 & Hitems & Hspine & _ & Href & _);
    [apply reach_init|reflexivity|reflexivity
    |vm_compute; reflexivity|vm_compute; reflexivity|].
  assert (Hnames : map item_href
            (items (manifest (oeb (insert_cover
               (insert_cover (world (init false false false None) book)).1).1)))
          = ["cover.jpg"; "titlepage.xhtml"; "titlepage1.xhtml"])
    by (vm_compute; reflexivity).
  rewrite Hitems in Hnames. cbn [app map] in Hnames.
  injection Hnames as H1 H2.
  exists item1, item2. split; [exact H1|]. split; [exact H2|].
  split; [|exact Hspine]. rewrite H1 in Href. exact Href.
Defined.
